(** * markt-comparator: the product/market ledger of [mCbackend.py]

    A shallow embedding of the back-end module: the module-level dictionary
    [markets] (market name -> product name -> price), the JSON document it is
    loaded from and rewritten to, and the four operations [list_products],
    [find_product], [update_product] and [delete_product]. *)

From Stdlib Require Import String Ascii List Bool Lia QArith Sorted.
Import ListNotations.
Local Close Scope Q_scope.
Local Open Scope string_scope.
Local Open Scope list_scope.

(** ** Python dictionaries

    A [dict] keeps its items in insertion order, holds each key once,
    overwrites in place and appends new keys at the end.  Keys are strings
    throughout the module. *)

Module Dict.

Section Ops.
Context {V : Type}.

Definition t := list (string * V).

(** [d[k]], [None] standing for the [KeyError]. *)
Fixpoint get (k : string) (d : t) : option V :=
  match d with
  | [] => None
  | (k', v) :: rest => if String.eqb k' k then Some v else get k rest
  end.

(** [k in d] *)
Definition mem (k : string) (d : t) : bool :=
  match get k d with Some _ => true | None => false end.

(** [d[k] = v] *)
Fixpoint set (k : string) (v : V) (d : t) : t :=
  match d with
  | [] => [(k, v)]
  | (k', v') :: rest =>
      if String.eqb k' k then (k', v) :: rest else (k', v') :: set k v rest
  end.

(** [del d[k]], [None] standing for the [KeyError]. *)
Fixpoint del (k : string) (d : t) : option t :=
  match d with
  | [] => None
  | (k', v') :: rest =>
      if String.eqb k' k then Some rest
      else match del k rest with
           | Some rest' => Some ((k', v') :: rest')
           | None => None
           end
  end.

(** [list(d)]: the keys in iteration order. *)
Definition keys (d : t) : list string := map fst d.

(** [not d] *)
Definition is_empty (d : t) : bool :=
  match d with [] => true | _ :: _ => false end.

(** What every Python dictionary satisfies: no key twice. *)
Definition wf (d : t) : Prop := NoDup (keys d).

End Ops.

Arguments t : clear implicits.

End Dict.

(** ** Strings *)

(** [str.lower()] on the ASCII letters.  The module compares the result with
    ["all"] only, and [A]-[Z] are the only characters lowered to [a]-[z]
    apart from U+212A (to [k]) and U+0130 (to [i] and a combining dot), so
    the comparison is decided as in Python. *)
Definition lower_ascii (c : ascii) : ascii :=
  let n := nat_of_ascii c in
  if Nat.leb 65 n && Nat.leb n 90 then ascii_of_nat (n + 32) else c.

Fixpoint lower (s : string) : string :=
  match s with
  | EmptyString => EmptyString
  | String c rest => String (lower_ascii c) (lower rest)
  end.

(** [needle in hay] on two strings: the substring test. *)
Fixpoint str_in (needle hay : string) : bool :=
  String.prefix needle hay ||
  match hay with
  | EmptyString => false
  | String _ rest => str_in needle rest
  end.

(** A Python string is held as the bytes of its UTF-8 form.  A [str] can also
    hold a lone surrogate (U+D800 to U+DFFF; [json.load] builds one from an
    escape such as [\ud800]), which UTF-8 does not encode; it is held as the
    three bytes its code point would take: 237, a byte from 160 to 191, and
    one more.  A string can be written to a file opened with
    [encoding="UTF-8"] when it holds none. *)
Definition surrogate_lead (c d : ascii) : bool :=
  Nat.eqb (nat_of_ascii c) 237 &&
  Nat.leb 160 (nat_of_ascii d) && Nat.leb (nat_of_ascii d) 191.

Fixpoint utf8_encodable (s : string) : bool :=
  match s with
  | EmptyString => true
  | String c rest =>
      match rest with
      | EmptyString => true
      | String d _ => negb (surrogate_lead c d) && utf8_encodable rest
      end
  end.

(** The string whose only character is U+D800. *)
Definition lone_surrogate : string :=
  String (ascii_of_nat 237)
    (String (ascii_of_nat 160) (String (ascii_of_nat 128) EmptyString)).

(** ** The module state *)

Inductive exn : Set :=
| KeyError
| AttributeError
| RuntimeError
| FileNotFoundError
| UnicodeEncodeError
| JSONDecodeError.

Inductive outcome (A : Type) : Type :=
| Return (a : A)
| Raise (e : exn).

Arguments Return {A} a.
Arguments Raise {A} e.

Section Backend.

Context {price : Type}.

Definition catalog := Dict.t price.
Definition ledger := Dict.t catalog.

(** The JSON values a ledger is written as: numbers and objects.  The text
    of the document (indentation, escapes, the digits of a number) is the
    business of Python's [json] and is not modelled, apart from whether its
    names can be encoded for the file. *)
#[warnings="-register-all"]
Inductive json : Type :=
| JNum (x : price)
| JObj (members : list (string * json)).

(** [json.dump] of a dictionary of dictionaries of numbers: the members
    come in the dictionaries' iteration order. *)
Definition dump_catalog (c : catalog) : json :=
  JObj (map (fun kv => (fst kv, JNum (snd kv))) c).

Definition json_dump (m : ledger) : json :=
  JObj (map (fun kv => (fst kv, dump_catalog (snd kv))) m).

(** [json.load]: an object becomes a dictionary filled member by member,
    so that a repeated name keeps its first place and its last value.
    [None] for a document that is not a ledger. *)
Fixpoint load_catalog_members (ms : list (string * json)) (acc : catalog)
  : option catalog :=
  match ms with
  | [] => Some acc
  | (k, JNum x) :: rest => load_catalog_members rest (Dict.set k x acc)
  | (_, JObj _) :: _ => None
  end.

Definition load_catalog (j : json) : option catalog :=
  match j with
  | JObj ms => load_catalog_members ms []
  | JNum _ => None
  end.

Fixpoint load_members (ms : list (string * json)) (acc : ledger)
  : option ledger :=
  match ms with
  | [] => Some acc
  | (k, j) :: rest =>
      match load_catalog j with
      | Some c => load_members rest (Dict.set k c acc)
      | None => None
      end
  end.

Definition json_load (j : json) : option ledger :=
  match j with
  | JObj ms => load_members ms []
  | JNum _ => None
  end.

(** Every market name and product name of the ledger can be encoded. *)
Definition ledger_encodable (m : ledger) : bool :=
  forallb
    (fun market =>
       utf8_encodable (fst market) &&
       forallb (fun item => utf8_encodable (fst item)) (snd market))
    m.

(** What a file holds once [json.dump] is over: the document or, when a
    name could not be encoded, the text of the document cut off before that
    name, which is not a JSON text. *)
Inductive document : Type :=
| Doc (j : json)
| Truncated (j : json).

(** The interpreter's view: the dictionary [markets] and the files. *)
Record world : Type := World {
  markets : ledger;
  disk : Dict.t document
}.

Definition json_file : string := "products.json".

(** Statements run in a world, may change it and may raise. What was
    changed before an exception stays changed. *)
Definition M (A : Type) : Type := world -> world * outcome A.

Definition ret {A} (a : A) : M A := fun w => (w, Return a).

Definition raise {A} (e : exn) : M A := fun w => (w, Raise e).

Definition bind {A B} (c : M A) (k : A -> M B) : M B :=
  fun w =>
    match c w with
    | (w', Return a) => k a w'
    | (w', Raise e) => (w', Raise e)
    end.

(** [try: body  except KeyError: handler] *)
Definition try_except_KeyError {A} (body handler : M A) : M A :=
  fun w =>
    match body w with
    | (w', Raise KeyError) => handler w'
    | r => r
    end.

Definition get_markets : M ledger := fun w => (w, Return (markets w)).

Definition set_markets (m : ledger) : M unit :=
  fun w => (World m (disk w), Return tt).

End Backend.

Arguments json : clear implicits.
Arguments document : clear implicits.
Arguments world : clear implicits.
Arguments M : clear implicits.

Declare Scope py_scope.
Delimit Scope py_scope with py.
Notation "x <- c ;; k" := (bind c (fun x => k))
  (at level 61, c at next level, right associativity) : py_scope.
Notation "c ;; k" := (bind c (fun _ => k))
  (at level 61, right associativity) : py_scope.

Section Operations.

Context {price : Type}.
Local Open Scope py_scope.

(** The module's first statements:
    [with open(json_file, "r") as database: markets = json.load(database)].
    The value loaded is [None] when the document is not a ledger; a file
    that was cut off does not parse. *)
Definition load_markets (fs : Dict.t (document price))
  : outcome (option (@ledger price)) :=
  match Dict.get json_file fs with
  | None => Raise FileNotFoundError
  | Some (Doc doc) => Return (json_load doc)
  | Some (Truncated _) => Raise JSONDecodeError
  end.

(** [update_json()]: the file is opened with ["w"], which empties it, and
    [json.dump(markets, outgoing, indent=4, ensure_ascii=False)] writes the
    text piece by piece.  The piece of a name that cannot be encoded raises
    [UnicodeEncodeError]; the file is then closed with the pieces written
    before.  Faults of the storage itself are outside this model. *)
Definition update_json : M price unit :=
  fun w =>
    if ledger_encodable (markets w)
    then (World (markets w)
                (Dict.set json_file (Doc (json_dump (markets w))) (disk w)),
          Return tt)
    else (World (markets w)
                (Dict.set json_file (Truncated (json_dump (markets w))) (disk w)),
          Raise UnicodeEncodeError).

(** [list_products()] *)
Definition list_products_scan (m : @ledger price) : list string :=
  fold_left
    (fun listed market =>
       fold_left
         (fun listed product =>
            if existsb (String.eqb product) listed then listed
            else listed ++ [product])
         (Dict.keys (snd market)) listed)
    m [].

Definition list_products : M price (option (list string)) :=
  m <- get_markets ;;
  let listed := list_products_scan m in
  if Nat.eqb (length listed) 0 then ret None else ret (Some listed).

(** [find_product(product)] *)
Definition find_product_scan (product : string) (m : @ledger price)
  : list (string * price) :=
  fold_left
    (fun found_in market =>
       fold_left
         (fun found_in item =>
            if String.eqb (fst item) product
            then found_in ++ [(fst market, snd item)]
            else found_in)
         (snd market) found_in)
    m [].

Definition find_product (product : string) : M price (list (string * price)) :=
  m <- get_markets ;;
  ret (find_product_scan product m).

(** [update_product(product, in_market, cost)] *)
Definition update_product (product in_market : string) (cost : price) : M price unit :=
  m <- get_markets ;;
  (if negb (Dict.mem in_market m)
   then set_markets (Dict.set in_market [] m)
   else ret tt) ;;
  m <- get_markets ;;
  match Dict.get in_market m with
  | None => raise KeyError
  | Some its_products =>
      set_markets (Dict.set in_market (Dict.set product cost its_products) m)
  end ;;
  update_json.

(** [del markets[market][product]] *)
Definition del_entry (market product : string) : M price unit :=
  m <- get_markets ;;
  match Dict.get market m with
  | None => raise KeyError
  | Some its_products =>
      match Dict.del product its_products with
      | None => raise KeyError
      | Some remaining => set_markets (Dict.set market remaining m)
      end
  end.

(** [if not markets[market]: del markets[market]]; the result tells
    whether [markets] lost an item. *)
Definition prune (market : string) : M price bool :=
  m <- get_markets ;;
  match Dict.get market m with
  | None => raise KeyError
  | Some its_products =>
      if Dict.is_empty its_products then
        match Dict.del market m with
        | None => raise KeyError
        | Some m' => set_markets m' ;; ret true
        end
      else ret false
  end.

(** [for market in markets: ...] of the ["all"] branch.  [todo] are the
    keys still to come; as long as [markets] keeps its size they are the
    keys the dictionary iterator yields.  Once [markets] has lost an item
    the iterator's next step raises [RuntimeError] (dictionary changed
    size during iteration), also when no key is left. *)
Fixpoint for_market_in_markets (product : string) (todo : list string) : M price unit :=
  match todo with
  | [] => ret tt
  | market :: rest =>
      if str_in product market then
        del_entry market product ;;
        resized <- prune market ;;
        if (resized : bool) then raise RuntimeError
        else for_market_in_markets product rest
      else for_market_in_markets product rest
  end.

(** [for market in in_market: ...] of the list branch. *)
Fixpoint for_market_in_list (product : string) (in_market : list string) : M price unit :=
  match in_market with
  | [] => ret tt
  | market :: rest =>
      if str_in product market then
        del_entry market product ;;
        prune market ;;
        for_market_in_list product rest
      else for_market_in_list product rest
  end.

(** The argument [in_market: Union[str, List[str]]]. *)
Inductive target : Type :=
| Str (s : string)
| Lst (l : list string).

(** [in_market.lower()]: a list has no such method. *)
Definition lower_of (in_market : target) : M price string :=
  match in_market with
  | Str s => ret (lower s)
  | Lst _ => raise AttributeError
  end.

(** [delete_product(product, in_market)] *)
Definition delete_product (product : string) (in_market : target) : M price bool :=
  lowered <- lower_of in_market ;;
  if String.eqb lowered "all" then
    m <- get_markets ;;
    for_market_in_markets product (Dict.keys m) ;;
    ret true
  else
    try_except_KeyError
      (match in_market with
       | Lst l => for_market_in_list product l
       | Str s => del_entry s product ;; prune s ;; ret tt
       end ;;
       update_json ;;
       ret true)
      (ret false).

End Operations.

(** ** Vocabulary of the specification *)

Section Vocabulary.

Context {price : Type}.

(** The ledgers Python can hold: no market twice, no product twice in a
    market. *)
Definition ledger_wf (m : @ledger price) : Prop :=
  Dict.wf m /\ Forall (fun market => Dict.wf (snd market)) m.

(** No market with an empty catalog. *)
Definition no_empty_catalog (m : @ledger price) : Prop :=
  Forall (fun market => snd market <> []) m.

(** [markets[vendor][product]], [None] when either key is missing. *)
Definition price_of (m : @ledger price) (vendor product : string) : option price :=
  match Dict.get vendor m with
  | Some its_products => Dict.get product its_products
  | None => None
  end.

(** The catalog of a market, empty for a market not in the ledger. *)
Definition catalog_of (m : @ledger price) (vendor : string) : @catalog price :=
  match Dict.get vendor m with
  | Some its_products => its_products
  | None => []
  end.

(** Every product name of every market, market after market. *)
Definition product_names (m : @ledger price) : list string :=
  flat_map (fun market => Dict.keys (snd market)) m.

(** The first occurrence of each name, in the order of the first
    occurrences. *)
Fixpoint first_seen (names : list string) : list string :=
  match names with
  | [] => []
  | name :: rest =>
      name :: filter (fun other => negb (String.eqb name other)) (first_seen rest)
  end.

(** The pairs of a market for one product, as [find_product] reports them. *)
Definition offers_of (product : string) (market : string * @catalog price)
  : list (string * price) :=
  map (fun item => (fst market, snd item))
      (filter (fun item => String.eqb (fst item) product) (snd market)).

End Vocabulary.

(** Ascending prices, for prices that are rationals. *)
Definition ascending (found : list (string * Q)) : Prop :=
  Sorted (fun a b => Qle (snd a) (snd b)) found.

(** ** Sample ledgers *)

Definition milk_ledger : @ledger Q :=
  [("Vendor A", [("Milk", 1.5%Q)]); ("Vendor B", [("Milk", 1.2%Q)])].

Definition scenario_ledger : @ledger Q :=
  [("A", [("Bread", 2.0%Q)]); ("B", [("Bread", 1.5%Q); ("Milk", 1.0%Q)])].

Definition all_ledger : @ledger Q :=
  [("All", [("Milk", 1.0%Q)])].

Definition world_of (m : @ledger Q) : world Q := World m [].

(** A ledger as [json.load] builds it from the document
    [{"\ud800": {"Milk": 1.0}}]. *)
Definition surrogate_ledger : @ledger Q :=
  [(lone_surrogate, [("Milk", 1.0%Q)])].

(** ** Localisation: class [Lang] and the language selector

    The localisation document is an object that holds, beside one table of
    strings per language, the name of the language in use under the key
    ["selected"].  As for the ledger the document is taken as the value
    [json.load] builds from it. *)

Inductive lval : Type :=
| LStr (s : string)
| LTable (t : Dict.t string).

Inductive lang_exn : Set :=
| LangFileNotFoundError
| LangKeyError
| LangTypeError.

Module Lang.

(** The attributes of an instance. *)
Record t : Type := Make {
  loc_file : string;
  la : Dict.t lval;
  o : string;
  lan : lval
}.

(** [Lang.__init__(self, file)].  [self.la["selected"] in self.la] raises
    [TypeError] for a table, which cannot be a key. *)
Definition init (file : string) (fs : Dict.t (Dict.t lval)) : t + lang_exn :=
  match Dict.get file fs with
  | None => inr LangFileNotFoundError
  | Some la =>
      match Dict.get "selected" la with
      | None => inr LangKeyError
      | Some (LTable _) => inr LangTypeError
      | Some (LStr selected) =>
          let o := if Dict.mem selected la && negb (String.eqb selected "selected")
                   then selected
                   else "English" in
          match Dict.get o la with
          | None => inr LangKeyError
          | Some lan => inl (Make file la o lan)
          end
      end
  end.

(** [Lang.change(self, selection)]: [file_copy] is [self.la] itself, so the
    instance sees the new ["selected"]; [self.o] and [self.lan] are not
    assigned. *)
Definition change (self : t) (selection : string) (fs : Dict.t (Dict.t lval))
  : t * Dict.t (Dict.t lval) :=
  let file_copy := Dict.set "selected" (LStr selection) (la self) in
  (Make (loc_file self) file_copy (o self) (lan self),
   Dict.set (loc_file self) file_copy fs).

End Lang.

(** [LanguageSelector.list_available_languages()] of the GUI module, on the
    instance [loc]. *)
Definition list_available_languages (loc : Lang.t) : list string :=
  fold_left
    (fun available_languages language =>
       if negb (String.eqb language "selected")
       then available_languages ++ [language]
       else available_languages)
    (Dict.keys (Lang.la loc)) [].

Definition sample_localisation : Dict.t lval :=
  [("selected", LStr "Deutsch");
   ("English", LTable [("NoProducts", "No products")]);
   ("Deutsch", LTable [("NoProducts", "Keine Produkte")])].

Definition sample_loc : Lang.t :=
  Lang.Make "localisation.json" sample_localisation "Deutsch"
            (LTable [("NoProducts", "Keine Produkte")]).

(** Well-formedness of a ledger written out in full is checked key by key. *)
Ltac check_wf :=
  unfold ledger_wf, no_empty_catalog, Dict.wf, Dict.keys; simpl;
  repeat match goal with
         | |- _ /\ _ => split
         | |- NoDup _ => constructor
         | |- Forall _ _ => constructor
         | |- ~ _ => simpl; intuition discriminate
         | |- _ <> _ => discriminate
         end.

(** ** Facts about dictionaries *)

Module DictFacts.

Section Facts.
Context {V : Type}.
Implicit Types (d : Dict.t V) (k : string) (v : V).

Lemma NoDup_snoc (A : Type) (l : list A) (x : A) :
  NoDup l -> ~ In x l -> NoDup (l ++ [x]).
Proof.
  induction l as [|a l IH]; simpl; intros Hnd Hnot.
  - constructor; [tauto | constructor].
  - inversion Hnd; subst. constructor.
    + rewrite in_app_iff. simpl. intuition congruence.
    + apply IH; tauto.
Qed.

Lemma get_set_same k v d : Dict.get k (Dict.set k v d) = Some v.
Proof.
  induction d as [|[k' v'] d IH]; simpl.
  - now rewrite String.eqb_refl.
  - destruct (String.eqb k' k) eqn:E; simpl; rewrite E; auto.
Qed.

Lemma get_set_other k k' v d :
  k' <> k -> Dict.get k' (Dict.set k v d) = Dict.get k' d.
Proof.
  intros Hne. induction d as [|[k0 v0] d IH]; simpl.
  - destruct (String.eqb_spec k k'); congruence.
  - destruct (String.eqb_spec k0 k); simpl.
    + subst k0. destruct (String.eqb_spec k k'); congruence.
    + now rewrite IH.
Qed.

Lemma set_set_same k v1 v2 d :
  Dict.set k v2 (Dict.set k v1 d) = Dict.set k v2 d.
Proof.
  induction d as [|[k' v'] d IH]; simpl.
  - now rewrite String.eqb_refl.
  - destruct (String.eqb k' k) eqn:E; simpl; rewrite E; congruence.
Qed.

Lemma get_None_keys k d : Dict.get k d = None <-> ~ In k (Dict.keys d).
Proof.
  induction d as [|[k' v'] d IH]; simpl.
  - tauto.
  - destruct (String.eqb_spec k' k); split; intros H.
    + discriminate.
    + exfalso. tauto.
    + intros [?|?]; [congruence | tauto].
    + apply IH. tauto.
Qed.

Lemma get_Some_In k v d : Dict.get k d = Some v -> In (k, v) d.
Proof.
  induction d as [|[k' v'] d IH]; simpl; [discriminate|].
  destruct (String.eqb_spec k' k); intros H.
  - left. congruence.
  - right. auto.
Qed.

Lemma In_get k v d : Dict.wf d -> In (k, v) d -> Dict.get k d = Some v.
Proof.
  unfold Dict.wf. induction d as [|[k' v'] d IH]; simpl; [tauto|].
  intros Hwf [Heq|Hin]; inversion Hwf as [|? ? Hnot Hnd]; subst.
  - inversion Heq; subst. now rewrite String.eqb_refl.
  - destruct (String.eqb_spec k' k); [|auto].
    subst k'. exfalso. apply Hnot.
    change k with (fst (k, v)). now apply in_map.
Qed.

Lemma mem_true_get k d : Dict.mem k d = true -> exists v, Dict.get k d = Some v.
Proof.
  unfold Dict.mem. destruct (Dict.get k d); [eauto | discriminate].
Qed.

Lemma set_fresh k v d : ~ In k (Dict.keys d) -> Dict.set k v d = d ++ [(k, v)].
Proof.
  induction d as [|[k' v'] d IH]; simpl; [reflexivity|].
  intros Hnot. destruct (String.eqb_spec k' k); [tauto|].
  rewrite IH; tauto.
Qed.

Lemma keys_set_present k v d :
  In k (Dict.keys d) -> Dict.keys (Dict.set k v d) = Dict.keys d.
Proof.
  induction d as [|[k' v'] d IH]; simpl; [tauto|].
  destruct (String.eqb_spec k' k); simpl; [reflexivity|].
  intros [?|?]; [congruence|]. now rewrite IH.
Qed.

Lemma keys_set k v d :
  Dict.keys (Dict.set k v d) =
  if Dict.mem k d then Dict.keys d else Dict.keys d ++ [k].
Proof.
  unfold Dict.mem. destruct (Dict.get k d) eqn:E.
  - apply keys_set_present. destruct (in_dec string_dec k (Dict.keys d)); [assumption|].
    apply get_None_keys in n. congruence.
  - apply get_None_keys in E. rewrite set_fresh by assumption.
    unfold Dict.keys. now rewrite map_app.
Qed.

Lemma wf_set k v d : Dict.wf d -> Dict.wf (Dict.set k v d).
Proof.
  unfold Dict.wf. intros Hwf. rewrite keys_set.
  destruct (Dict.mem k d) eqn:E; [assumption|].
  unfold Dict.mem in E. destruct (Dict.get k d) eqn:G; [discriminate|].
  apply get_None_keys in G. now apply NoDup_snoc.
Qed.

Lemma del_None k d : Dict.del k d = None <-> Dict.get k d = None.
Proof.
  induction d as [|[k' v'] d IH]; simpl; [tauto|].
  destruct (String.eqb_spec k' k).
  - split; discriminate.
  - destruct (Dict.del k d); split; intros H; try discriminate; try reflexivity;
      apply IH in H; try discriminate; assumption.
Qed.

Lemma del_keys_incl k d d' :
  Dict.del k d = Some d' -> forall x, In x d' -> In x d.
Proof.
  revert d'. induction d as [|[k' v'] d IH]; simpl; [discriminate|].
  intros d'. destruct (String.eqb_spec k' k).
  - intros H x Hx. inversion H; subst. now right.
  - destruct (Dict.del k d) as [r|]; [|discriminate].
    intros H x Hx. inversion H; subst. destruct Hx as [?|?]; [now left|].
    right. now apply (IH r).
Qed.

Lemma wf_del k d d' : Dict.wf d -> Dict.del k d = Some d' -> Dict.wf d'.
Proof.
  unfold Dict.wf. revert d'. induction d as [|[k' v'] d IH]; simpl; [discriminate|].
  intros d' Hwf. inversion Hwf as [|? ? Hnot Hnd]; subst.
  destruct (String.eqb_spec k' k).
  - intros H. inversion H; subst. assumption.
  - destruct (Dict.del k d) as [r|] eqn:E; [|discriminate].
    intros H. inversion H; subst. simpl. constructor; [|now apply IH].
    intros Hin. apply Hnot. unfold Dict.keys in *.
    apply in_map_iff in Hin as [[a b] [Hfst Hin]]. simpl in Hfst. subst a.
    apply in_map_iff. exists (k', b). split; [reflexivity|].
    now apply (del_keys_incl _ _ _ E).
Qed.

Lemma get_del_same k d d' :
  Dict.wf d -> Dict.del k d = Some d' -> Dict.get k d' = None.
Proof.
  unfold Dict.wf. revert d'. induction d as [|[k' v'] d IH]; simpl; [discriminate|].
  intros d' Hwf. inversion Hwf as [|? ? Hnot Hnd]; subst.
  destruct (String.eqb_spec k' k).
  - intros H. inversion H; subst. now apply get_None_keys.
  - destruct (Dict.del k d) as [r|] eqn:E; [|discriminate].
    intros H. inversion H; subst. simpl.
    destruct (String.eqb_spec k' k); [contradiction|]. now apply IH.
Qed.

Lemma get_del_other k k' d d' :
  k' <> k -> Dict.del k d = Some d' -> Dict.get k' d' = Dict.get k' d.
Proof.
  intros Hne. revert d'. induction d as [|[k0 v0] d IH]; simpl; [discriminate|].
  intros d'. destruct (String.eqb_spec k0 k).
  - intros H. inversion H; subst. destruct (String.eqb_spec k k'); congruence.
  - destruct (Dict.del k d) as [r|] eqn:E; [|discriminate].
    intros H. inversion H; subst. simpl. now rewrite (IH r).
Qed.

(** A key of a well-formed dictionary splits it in two parts that do not
    hold the key. *)
Lemma get_split k v d :
  Dict.wf d -> Dict.get k d = Some v ->
  exists d1 d2, d = d1 ++ (k, v) :: d2 /\
                ~ In k (Dict.keys d1) /\ ~ In k (Dict.keys d2).
Proof.
  unfold Dict.wf. induction d as [|[k' v'] d IH]; simpl; [discriminate|].
  intros Hwf. inversion Hwf as [|? ? Hnot Hnd]; subst.
  destruct (String.eqb_spec k' k).
  - intros H. inversion H; subst. exists [], d. simpl. tauto.
  - intros H. destruct (IH Hnd H) as (d1 & d2 & -> & H1 & H2).
    exists ((k', v') :: d1), d2. simpl. repeat split; [|assumption].
    intros [?|?]; [congruence | tauto].
Qed.

End Facts.

End DictFacts.

(** ** What the operations compute *)

Section Runs.

Context {price : Type}.
Implicit Types (w : world price) (m : @ledger price).

Lemma update_json_markets w : markets (fst (update_json w)) = markets w.
Proof. unfold update_json. now destruct (ledger_encodable (markets w)). Qed.

Lemma update_json_outcome w :
  snd (update_json w)
  = if ledger_encodable (markets w) then Return tt else Raise UnicodeEncodeError.
Proof. unfold update_json. now destruct (ledger_encodable (markets w)). Qed.

Lemma update_json_returns w :
  snd (update_json w) = Return tt ->
  fst (update_json w)
  = World (markets w) (Dict.set json_file (Doc (json_dump (markets w))) (disk w)).
Proof.
  unfold update_json. destruct (ledger_encodable (markets w)); simpl;
    [reflexivity | discriminate].
Qed.

Lemma update_product_run product in_market (cost : price) w :
  update_product product in_market cost w =
  let m' := Dict.set in_market
              (Dict.set product cost (catalog_of (markets w) in_market))
              (markets w) in
  update_json (World m' (disk w)).
Proof.
  unfold update_product, bind, get_markets, set_markets, ret,
    catalog_of, Dict.mem.
  destruct (Dict.get in_market (markets w)) as [c|] eqn:G; simpl.
  - now rewrite G.
  - rewrite DictFacts.get_set_same. simpl.
    now rewrite DictFacts.set_set_same.
Qed.

Lemma update_product_markets product in_market (cost : price) w :
  markets (fst (update_product product in_market cost w))
  = Dict.set in_market
      (Dict.set product cost (catalog_of (markets w) in_market))
      (markets w).
Proof. rewrite update_product_run. cbv zeta. now rewrite update_json_markets. Qed.

(** The scan of [find_product], market by market. *)
Lemma find_in_market_from product (market : string * @catalog price) found_in :
  fold_left
    (fun found_in item =>
       if String.eqb (fst item) product
       then found_in ++ [(fst market, snd item)]
       else found_in)
    (snd market) found_in
  = found_in ++ offers_of product market.
Proof.
  unfold offers_of. generalize (snd market) as items. intros items.
  revert found_in. induction items as [|item items IH]; intros found_in; simpl.
  - now rewrite app_nil_r.
  - rewrite IH. destruct (String.eqb (fst item) product); simpl.
    + now rewrite <- app_assoc.
    + reflexivity.
Qed.

Lemma find_product_scan_from product m found_in :
  fold_left
    (fun found_in market =>
       fold_left
         (fun found_in item =>
            if String.eqb (fst item) product
            then found_in ++ [(fst market, snd item)]
            else found_in)
         (snd market) found_in)
    m found_in
  = found_in ++ flat_map (offers_of product) m.
Proof.
  revert found_in. induction m as [|market m IH]; intros found_in; simpl.
  - now rewrite app_nil_r.
  - rewrite find_in_market_from, IH. now rewrite app_assoc.
Qed.

Lemma find_product_scan_flat product m :
  find_product_scan product m = flat_map (offers_of product) m.
Proof. unfold find_product_scan. now rewrite find_product_scan_from. Qed.

Lemma find_product_run product w :
  find_product product w = (w, Return (flat_map (offers_of product) (markets w))).
Proof.
  unfold find_product, bind, get_markets, ret.
  now rewrite find_product_scan_flat.
Qed.

(** [find_product] reports the pairs of the ledger and nothing else. *)
Lemma find_product_scan_In product m vendor (x : price) :
  In (vendor, x) (find_product_scan product m) <->
  exists its_products, In (vendor, its_products) m /\ In (product, x) its_products.
Proof.
  rewrite find_product_scan_flat, in_flat_map. unfold offers_of. split.
  - intros ([v c] & Hin & Hoff). simpl in Hoff.
    apply in_map_iff in Hoff as ([p y] & Heq & Hf). simpl in Heq.
    apply filter_In in Hf as [Hf Hp]. simpl in Hp.
    apply String.eqb_eq in Hp. inversion Heq; subst.
    exists c. auto.
  - intros (c & Hin & Hp). exists (vendor, c). split; [assumption|].
    simpl. apply in_map_iff. exists (product, x). split; [reflexivity|].
    apply filter_In. simpl. now rewrite String.eqb_refl.
Qed.

(** No market carries the product: the empty list, no exception. *)
Lemma find_product_absent product w :
  (forall vendor, price_of (markets w) vendor product = None) ->
  Dict.wf (markets w) ->
  find_product product w = (w, Return []).
Proof.
  intros Habs Hwf. unfold find_product, bind, get_markets, ret. f_equal. f_equal.
  destruct (find_product_scan product (markets w)) as [|[v x] l] eqn:E; [reflexivity|].
  exfalso.
  assert (Hin : In (v, x) (find_product_scan product (markets w)))
    by (rewrite E; now left).
  apply find_product_scan_In in Hin as (c & Hin & Hp).
  specialize (Habs v). unfold price_of in Habs.
  assert (G : Dict.get v (markets w) = Some c)
    by (apply DictFacts.In_get; assumption).
  rewrite G in Habs.
  apply DictFacts.get_None_keys in Habs. apply Habs.
  change product with (fst (product, x)). now apply in_map.
Qed.

(** In a well-formed catalog a product is offered once. *)
Lemma offers_of_carried product vendor (c : @catalog price) x :
  Dict.wf c -> Dict.get product c = Some x ->
  offers_of product (vendor, c) = [(vendor, x)].
Proof.
  intros Hwf Hget.
  destruct (DictFacts.get_split _ _ _ Hwf Hget) as (c1 & c2 & -> & H1 & H2).
  unfold offers_of. simpl. rewrite filter_app. simpl.
  rewrite String.eqb_refl.
  assert (Hnone : forall l : @catalog price, ~ In product (Dict.keys l) ->
            filter (fun item => String.eqb (fst item) product) l = []).
  { induction l as [|[p y] l IH]; simpl; [reflexivity|].
    intros Hn. destruct (String.eqb_spec p product); [tauto|]. apply IH. tauto. }
  now rewrite (Hnone c1 H1), (Hnone c2 H2).
Qed.

Lemma offers_of_vendor product (market : string * @catalog price) vendor x :
  In (vendor, x) (offers_of product market) -> vendor = fst market.
Proof.
  unfold offers_of. intros H. apply in_map_iff in H as (item & Heq & _).
  congruence.
Qed.

Lemma offers_other_vendors product m vendor x :
  ~ In vendor (Dict.keys m) ->
  ~ In (vendor, x) (flat_map (offers_of product) m).
Proof.
  intros Hnot Hin. apply in_flat_map in Hin as (market & Hm & Hoff).
  apply offers_of_vendor in Hoff. subst vendor. apply Hnot.
  now apply in_map.
Qed.

Lemma ledger_wf_set vendor (c : @catalog price) m :
  ledger_wf m -> Dict.wf c -> ledger_wf (Dict.set vendor c m).
Proof.
  intros [Hm Hc] Hwf. split; [now apply DictFacts.wf_set|].
  clear Hm. induction m as [|[v c0] m IH]; simpl.
  - repeat constructor. assumption.
  - inversion Hc; subst. destruct (String.eqb v vendor); constructor; auto.
Qed.

Lemma ledger_wf_catalog_of m vendor : ledger_wf m -> Dict.wf (catalog_of m vendor).
Proof.
  intros [_ Hc]. unfold catalog_of.
  destruct (Dict.get vendor m) as [c|] eqn:G; [|constructor].
  apply DictFacts.get_Some_In in G. rewrite Forall_forall in Hc.
  exact (Hc _ G).
Qed.

End Runs.

Lemma scenario_ledger_wf : ledger_wf scenario_ledger.
Proof. check_wf. Qed.

Lemma scenario_ledger_no_empty : no_empty_catalog scenario_ledger.
Proof. check_wf. Qed.

(** ** [update_product] *)

(** C4: [update_product(P, V, c)] puts [c] at [P] in the catalog of [V], the
    catalog being the one [V] had or an empty one when [V] was absent; a
    following [find_product(P)] reports [V] once, with the price [c]. *)
Theorem update_product_then_find
  (price : Type) (product vendor : string) (cost : price) (w : world price) :
  ledger_wf (markets w) ->
  let w' := fst (update_product product vendor cost w) in
  Dict.get vendor (markets w')
    = Some (Dict.set product cost (catalog_of (markets w) vendor)) /\
  price_of (markets w') vendor product = Some cost /\
  exists before after,
    find_product product w' = (w', Return (before ++ (vendor, cost) :: after)) /\
    (forall x, ~ In (vendor, x) before) /\
    (forall x, ~ In (vendor, x) after).
Proof.
  intros Hwf. cbv zeta. rewrite find_product_run, !update_product_markets.
  set (its_products := Dict.set product cost (catalog_of (markets w) vendor)).
  set (m' := Dict.set vendor its_products (markets w)).
  assert (Hget : Dict.get vendor m' = Some its_products)
    by apply DictFacts.get_set_same.
  assert (Hcat : Dict.wf its_products)
    by (apply DictFacts.wf_set; now apply ledger_wf_catalog_of).
  assert (Hwf' : ledger_wf m') by now apply ledger_wf_set.
  assert (Hprice : Dict.get product its_products = Some cost)
    by apply DictFacts.get_set_same.
  split; [exact Hget|]. split.
  - unfold price_of, catalog. now rewrite Hget.
  - destruct (DictFacts.get_split _ _ _ (proj1 Hwf') Hget)
      as (d1 & d2 & Hsplit & H1 & H2).
    exists (flat_map (offers_of product) d1), (flat_map (offers_of product) d2).
    split; [|split].
    + f_equal. f_equal. rewrite Hsplit, flat_map_app. simpl.
      now rewrite (offers_of_carried _ _ _ _ Hcat Hprice).
    + intros x. now apply offers_other_vendors.
    + intros x. now apply offers_other_vendors.
Qed.

Lemma update_product_then_find_witness :
  let w := world_of scenario_ledger in
  let w' := fst (update_product "Milk" "C" 3%Q w) in
  Dict.get "C" (markets w') = Some (Dict.set "Milk" 3%Q (catalog_of (markets w) "C")) /\
  price_of (markets w') "C" "Milk" = Some 3%Q /\
  exists before after,
    find_product "Milk" w' = (w', Return (before ++ ("C", 3%Q) :: after)) /\
    (forall x, ~ In ("C", x) before) /\
    (forall x, ~ In ("C", x) after).
Proof.
  exact (update_product_then_find Q "Milk" "C" 3%Q (world_of scenario_ledger)
           scenario_ledger_wf).
Defined.

Lemma catalog_of_set (price : Type) vendor (c : @catalog price) m :
  catalog_of (Dict.set vendor c m) vendor = c.
Proof. unfold catalog_of, catalog. now rewrite DictFacts.get_set_same. Qed.

(** C6: a second [update_product] with the same arguments changes nothing:
    the ledger and the document are those the first call left. *)
Theorem update_product_idempotent
  (price : Type) (product vendor : string) (cost : price) (w : world price) :
  update_product product vendor cost (fst (update_product product vendor cost w))
  = update_product product vendor cost w.
Proof.
  rewrite !update_product_run. cbv zeta. unfold update_json. simpl.
  destruct (ledger_encodable
              (Dict.set vendor
                 (Dict.set product cost (catalog_of (markets w) vendor))
                 (markets w))) eqn:E; simpl;
    rewrite catalog_of_set, !DictFacts.set_set_same, E; reflexivity.
Qed.

(** C10: [update_product(P, V, c)] leaves the catalog of every other market
    as it was, and in the catalog of [V] the price of every other product. *)
Theorem update_product_frame
  (price : Type) (product vendor : string) (cost : price) (w : world price) :
  let w' := fst (update_product product vendor cost w) in
  (forall other, other <> vendor ->
     Dict.get other (markets w') = Dict.get other (markets w)) /\
  (forall other, other <> product ->
     price_of (markets w') vendor other = price_of (markets w) vendor other).
Proof.
  cbv zeta. rewrite update_product_markets. split.
  - intros other Hne. now apply DictFacts.get_set_other.
  - intros other Hne. unfold price_of.
    rewrite DictFacts.get_set_same, DictFacts.get_set_other by assumption.
    unfold catalog_of. now destruct (Dict.get vendor (markets w)).
Qed.

Lemma update_product_frame_witness :
  let w := world_of scenario_ledger in
  let w' := fst (update_product "Bread" "B" 3%Q w) in
  Dict.get "A" (markets w') = Dict.get "A" (markets w) /\
  price_of (markets w') "B" "Milk" = price_of (markets w) "B" "Milk".
Proof.
  split.
  - apply (proj1 (update_product_frame Q "Bread" "B" 3%Q (world_of scenario_ledger))).
    discriminate.
  - apply (proj2 (update_product_frame Q "Bread" "B" 3%Q (world_of scenario_ledger))).
    discriminate.
Defined.

(** ** [list_products] *)

Section Listing.

Lemma filter_twice (A : Type) (f g h : A -> bool) (l : list A) :
  (forall y, g y && f y = h y) ->
  filter f (filter g l) = filter h l.
Proof.
  intros Hfg. induction l as [|a l IH]; simpl; [reflexivity|].
  rewrite <- (Hfg a). destruct (g a); simpl.
  - destruct (f a); now rewrite IH.
  - exact IH.
Qed.

Lemma seen_excludes listed name other :
  existsb (String.eqb name) listed = true ->
  negb (String.eqb name other) && negb (existsb (String.eqb other) listed)
  = negb (existsb (String.eqb other) listed).
Proof.
  intros Hseen. destruct (String.eqb_spec name other) as [->|]; simpl.
  - now rewrite Hseen.
  - reflexivity.
Qed.

Lemma seen_after_append listed name other :
  negb (String.eqb name other) && negb (existsb (String.eqb other) listed)
  = negb (existsb (String.eqb other) (listed ++ [name])).
Proof.
  rewrite existsb_app. simpl. rewrite orb_false_r, negb_orb.
  rewrite (String.eqb_sym other name). apply andb_comm.
Qed.

(** The inner loop of [list_products], started with names already listed. *)
Lemma listed_from names listed :
  fold_left
    (fun listed product =>
       if existsb (String.eqb product) listed then listed
       else listed ++ [product])
    names listed
  = listed ++
    filter (fun name => negb (existsb (String.eqb name) listed)) (first_seen names).
Proof.
  revert listed. induction names as [|name names IH]; intros listed; simpl.
  - now rewrite app_nil_r.
  - rewrite IH. destruct (existsb (String.eqb name) listed) eqn:Hseen; simpl.
    + f_equal. symmetry. apply filter_twice. intros other.
      now apply seen_excludes.
    + rewrite <- app_assoc. simpl. do 2 f_equal. symmetry.
      apply filter_twice. intros other. apply seen_after_append.
Qed.

Lemma list_products_scan_from (price : Type) (m : @ledger price) listed :
  fold_left
    (fun listed market =>
       fold_left
         (fun listed product =>
            if existsb (String.eqb product) listed then listed
            else listed ++ [product])
         (Dict.keys (snd market)) listed)
    m listed
  = fold_left
      (fun listed product =>
         if existsb (String.eqb product) listed then listed
         else listed ++ [product])
      (product_names m) listed.
Proof.
  revert listed. induction m as [|market m IH]; intros listed; simpl.
  - reflexivity.
  - now rewrite fold_left_app, IH.
Qed.

Lemma list_products_scan_first_seen (price : Type) (m : @ledger price) :
  list_products_scan m = first_seen (product_names m).
Proof.
  unfold list_products_scan. rewrite list_products_scan_from, listed_from.
  simpl. induction (first_seen (product_names m)) as [|a l IH]; simpl; congruence.
Qed.

Lemma first_seen_In names name : In name (first_seen names) <-> In name names.
Proof.
  induction names as [|a names IH]; simpl; [tauto|].
  rewrite filter_In, IH. destruct (String.eqb_spec a name); simpl.
  - tauto.
  - intuition congruence.
Qed.

Lemma first_seen_NoDup names : NoDup (first_seen names).
Proof.
  induction names as [|a names IH]; simpl; constructor.
  - rewrite filter_In, String.eqb_refl. simpl. intuition discriminate.
  - now apply NoDup_filter.
Qed.

End Listing.

(** C7: [list_products()] returns the product names of all catalogs, each
    once, in the order in which they are first met (market after market,
    product after product), and [None] when there is no product at all. *)
Theorem list_products_first_seen (price : Type) (w : world price) :
  let listed := first_seen (product_names (markets w)) in
  list_products w
    = (w, Return (match listed with [] => None | _ :: _ => Some listed end)) /\
  NoDup listed /\
  (forall product,
     In product listed <->
     exists vendor its_products,
       In (vendor, its_products) (markets w) /\
       In product (Dict.keys its_products)) /\
  (listed = [] <-> product_names (markets w) = []).
Proof.
  cbv zeta. split; [|split; [|split]].
  - unfold list_products, bind, get_markets.
    rewrite list_products_scan_first_seen.
    now destruct (first_seen (product_names (markets w))).
  - apply first_seen_NoDup.
  - intros product. rewrite first_seen_In. unfold product_names.
    rewrite in_flat_map. split.
    + intros ([vendor its_products] & Hin & Hp). eauto.
    + intros (vendor & its_products & Hin & Hp).
      exists (vendor, its_products). auto.
  - destruct (product_names (markets w)); simpl; split; intros H;
      try reflexivity; discriminate.
Qed.

(** ** The document *)

Section Document.

Context {price : Type}.

Lemma load_catalog_members_dump (c acc : @catalog price) :
  NoDup (Dict.keys acc ++ Dict.keys c) ->
  load_catalog_members (map (fun kv => (fst kv, JNum (snd kv))) c) acc
  = Some (acc ++ c).
Proof.
  revert acc. induction c as [|[k x] c IH]; intros acc Hnd; simpl.
  - now rewrite app_nil_r.
  - simpl in Hnd. rewrite DictFacts.set_fresh.
    + rewrite IH.
      * now rewrite <- app_assoc.
      * unfold Dict.keys. rewrite map_app, <- app_assoc. exact Hnd.
    + apply NoDup_remove_2 in Hnd. rewrite in_app_iff in Hnd. tauto.
Qed.

Lemma load_catalog_dump (c : @catalog price) :
  Dict.wf c -> load_catalog (dump_catalog c) = Some c.
Proof.
  intros Hwf. unfold load_catalog, dump_catalog.
  now rewrite load_catalog_members_dump.
Qed.

Lemma load_members_dump (m acc : @ledger price) :
  NoDup (Dict.keys acc ++ Dict.keys m) ->
  Forall (fun market => Dict.wf (snd market)) m ->
  load_members (map (fun kv => (fst kv, dump_catalog (snd kv))) m) acc
  = Some (acc ++ m).
Proof.
  revert acc. induction m as [|[k c] m IH]; intros acc Hnd Hcat;
    cbn [map load_members fst snd].
  - now rewrite app_nil_r.
  - simpl in Hnd. inversion Hcat as [|? ? Hc Hrest]; subst. simpl in Hc.
    rewrite load_catalog_dump by assumption.
    rewrite DictFacts.set_fresh.
    + rewrite IH.
      * now rewrite <- app_assoc.
      * unfold Dict.keys. rewrite map_app, <- app_assoc. exact Hnd.
      * assumption.
    + apply NoDup_remove_2 in Hnd. rewrite in_app_iff in Hnd. tauto.
Qed.

Lemma json_load_dump (m : @ledger price) :
  ledger_wf m -> json_load (json_dump m) = Some m.
Proof.
  intros [Hm Hc]. unfold json_load, json_dump.
  now rewrite load_members_dump.
Qed.

End Document.

(** C8, as amended: when [update_json()] returns, the document is the dump
    of the whole of [markets], members in the dictionaries' order, and
    loading the document again gives a ledger equal to [markets]. *)
Theorem persist_then_reload (price : Type) (w : world price) :
  ledger_wf (markets w) ->
  snd (update_json w) = Return tt ->
  let w' := fst (update_json w) in
  markets w' = markets w /\
  Dict.get json_file (disk w') = Some (Doc (json_dump (markets w))) /\
  load_markets (disk w') = Return (Some (markets w)).
Proof.
  intros Hwf Hret. cbv zeta. rewrite (update_json_returns _ Hret). simpl.
  unfold load_markets.
  rewrite DictFacts.get_set_same, json_load_dump by assumption. auto.
Qed.

Lemma persist_then_reload_witness :
  let w := world_of scenario_ledger in
  let w' := fst (update_json w) in
  markets w' = markets w /\
  Dict.get json_file (disk w') = Some (Doc (json_dump (markets w))) /\
  load_markets (disk w') = Return (Some (markets w)).
Proof.
  exact (persist_then_reload Q (world_of scenario_ledger) scenario_ledger_wf
           eq_refl).
Defined.

(** C8 as it was stated fails on a ledger that a valid document loads to:
    with a lone surrogate for a market name the dump raises
    [UnicodeEncodeError], the file is left cut off and no longer loads. *)
Lemma persist_then_reload_counterexample :
  ledger_wf surrogate_ledger /\
  load_markets [(json_file, Doc (json_dump surrogate_ledger))]
  = Return (Some surrogate_ledger) /\
  snd (update_json (world_of surrogate_ledger)) = Raise UnicodeEncodeError /\
  load_markets (disk (fst (update_json (world_of surrogate_ledger))))
  = Raise JSONDecodeError /\
  ~ (forall w : world Q,
       ledger_wf (markets w) ->
       load_markets (disk (fst (update_json w))) = Return (Some (markets w))).
Proof.
  assert (Hwf : ledger_wf surrogate_ledger) by check_wf.
  split; [exact Hwf|]. split; [reflexivity|]. split; [reflexivity|].
  split; [reflexivity|].
  intros H. specialize (H (world_of surrogate_ledger) Hwf). discriminate.
Qed.

(** ** [delete_product] *)

Section Deleting.

Context {price : Type}.
Implicit Types (w : world price) (m : @ledger price).
Local Open Scope py_scope.

Lemma del_set_same (V : Type) k (v v0 : V) (d : Dict.t V) :
  Dict.get k d = Some v0 -> Dict.del k (Dict.set k v d) = Dict.del k d.
Proof.
  induction d as [|[k' v'] d IH]; simpl; [discriminate|].
  destruct (String.eqb k' k) eqn:E; simpl; rewrite E; [reflexivity|].
  intros H. now rewrite IH.
Qed.

(** One market handled: its entry deleted, and the market with it when the
    entry was its last. *)
Lemma del_then_prune_run market product w :
  (del_entry market product ;; prune market) w =
  match Dict.get market (markets w) with
  | None => (w, Raise KeyError)
  | Some its_products =>
      match Dict.del product its_products with
      | None => (w, Raise KeyError)
      | Some [] =>
          match Dict.del market (markets w) with
          | Some m' => (World m' (disk w), Return true)
          | None => (World (Dict.set market [] (markets w)) (disk w), Raise KeyError)
          end
      | Some (item :: remaining) =>
          (World (Dict.set market (item :: remaining) (markets w)) (disk w),
           Return false)
      end
  end.
Proof.
  unfold del_entry, prune, bind, get_markets, set_markets, raise, ret.
  destruct (Dict.get market (markets w)) as [its_products|] eqn:G; [|reflexivity].
  destruct (Dict.del product its_products) as [[|item remaining]|] eqn:D;
    [| |reflexivity]; simpl; rewrite DictFacts.get_set_same; simpl.
  - rewrite (del_set_same _ _ _ _ _ G).
    now destruct (Dict.del market (markets w)).
  - reflexivity.
Qed.

Lemma for_market_in_markets_cons product market rest w :
  for_market_in_markets product (market :: rest) w =
  if str_in product market then
    match (del_entry market product ;; prune market) w with
    | (w', Return true) => (w', Raise RuntimeError)
    | (w', Return false) => for_market_in_markets product rest w'
    | (w', Raise e) => (w', Raise e)
    end
  else for_market_in_markets product rest w.
Proof.
  simpl. destruct (str_in product market); [|reflexivity].
  unfold bind. destruct (del_entry market product w) as [w1 [[]|e]]; [|reflexivity].
  destruct (prune market w1) as [w2 [[|]|e]]; reflexivity.
Qed.

(** What every handled market preserves, the loop preserves, however it
    ends. *)
Lemma for_market_in_markets_inv (Inv : world price -> Prop) product :
  (forall market w,
     Inv w -> Inv (fst ((del_entry market product ;; prune market) w))) ->
  forall todo w, Inv w -> Inv (fst (for_market_in_markets product todo w)).
Proof.
  intros Hstep. induction todo as [|market rest IH]; intros w Hw.
  - exact Hw.
  - rewrite for_market_in_markets_cons.
    destruct (str_in product market); [|now apply IH].
    specialize (Hstep market w Hw).
    destruct ((del_entry market product ;; prune market) w) as [w1 [[|]|e]];
      simpl in *; auto.
Qed.

(** No market mentions the product in its name: nothing is deleted. *)
Lemma for_market_in_markets_skip product todo w :
  forallb (fun market => negb (str_in product market)) todo = true ->
  for_market_in_markets product todo w = (w, Return tt).
Proof.
  induction todo as [|market rest IH]; simpl; [reflexivity|].
  intros H. apply andb_prop in H as [H1 H2].
  destruct (str_in product market); [discriminate|]. now apply IH.
Qed.

Lemma delete_all_run product s w :
  lower s = "all" ->
  delete_product product (Str s) w =
  (m <- get_markets ;;
   for_market_in_markets product (Dict.keys m) ;;
   ret true) w.
Proof.
  intros Hall. unfold delete_product, lower_of.
  unfold bind at 1. unfold ret at 1. now rewrite Hall.
Qed.

Lemma delete_single_run product s w :
  String.eqb (lower s) "all" = false ->
  delete_product product (Str s) w =
  match (del_entry s product ;; prune s) w with
  | (w', Return _) =>
      (fst (update_json w'),
       match snd (update_json w') with
       | Return _ => Return true
       | Raise e => Raise e
       end)
  | (w', Raise KeyError) => (w', Return false)
  | (w', Raise e) => (w', Raise e)
  end.
Proof.
  intros Hnot. unfold delete_product, lower_of.
  unfold bind at 1. unfold ret at 1. rewrite Hnot.
  unfold try_except_KeyError, bind.
  destruct (del_entry s product w) as [w1 [[]|e]].
  - destruct (prune s w1) as [w2 [b|e]].
    + unfold ret, update_json.
      now destruct (ledger_encodable (markets w2)).
    + destruct e; reflexivity.
  - destruct e; reflexivity.
Qed.

Lemma delete_list_run product l w :
  delete_product product (Lst l) w = (w, Raise AttributeError).
Proof. reflexivity. Qed.

(** *** The invariants a handled market keeps *)

Lemma Forall_set (P : string * @catalog price -> Prop) vendor c m :
  Forall P m -> (forall k, P (k, c)) -> Forall P (Dict.set vendor c m).
Proof.
  intros Hm Hc. induction m as [|[k c0] m IH]; simpl.
  - constructor; [apply Hc | constructor].
  - inversion Hm; subst. destruct (String.eqb k vendor); constructor; auto.
Qed.

Lemma Forall_del (P : string * @catalog price -> Prop) vendor m m' :
  Forall P m -> Dict.del vendor m = Some m' -> Forall P m'.
Proof.
  intros Hm Hdel. rewrite Forall_forall in *. intros x Hx.
  apply Hm. now apply (DictFacts.del_keys_incl _ _ _ Hdel).
Qed.

Lemma del_then_prune_no_empty market product w :
  no_empty_catalog (markets w) ->
  no_empty_catalog (markets (fst ((del_entry market product ;; prune market) w))).
Proof.
  intros Hinv. rewrite del_then_prune_run.
  destruct (Dict.get market (markets w)) as [its_products|] eqn:G; [|exact Hinv].
  destruct (Dict.del product its_products) as [[|item remaining]|]; [| |exact Hinv].
  - destruct (Dict.del market (markets w)) as [m'|] eqn:D; simpl.
    + exact (Forall_del _ _ _ _ Hinv D).
    + apply DictFacts.del_None in D. unfold ledger, catalog in *. congruence.
  - simpl. apply Forall_set; [assumption | discriminate].
Qed.

Lemma del_then_prune_wf market product w :
  ledger_wf (markets w) ->
  ledger_wf (markets (fst ((del_entry market product ;; prune market) w))).
Proof.
  intros Hwf. rewrite del_then_prune_run.
  destruct (Dict.get market (markets w)) as [its_products|] eqn:G; [|exact Hwf].
  destruct (Dict.del product its_products) as [remaining|] eqn:Dp; [|exact Hwf].
  assert (Hrem : Dict.wf remaining).
  { apply (DictFacts.wf_del product its_products); [|assumption].
    pose proof (ledger_wf_catalog_of (markets w) market Hwf) as Hc.
    unfold catalog_of, ledger, catalog in *. now rewrite G in Hc. }
  destruct remaining as [|item remaining].
  - destruct (Dict.del market (markets w)) as [m'|] eqn:D; simpl.
    + destruct Hwf as [Hm Hc]. split.
      * now apply (DictFacts.wf_del _ _ _ Hm D).
      * exact (Forall_del _ _ _ _ Hc D).
    + now apply ledger_wf_set.
  - simpl. now apply ledger_wf_set.
Qed.

Lemma del_then_prune_disk market product w :
  disk (fst ((del_entry market product ;; prune market) w)) = disk w.
Proof.
  rewrite del_then_prune_run.
  destruct (Dict.get market (markets w)) as [its_products|]; [|reflexivity].
  destruct (Dict.del product its_products) as [[|item remaining]|];
    [| reflexivity | reflexivity].
  now destruct (Dict.del market (markets w)).
Qed.

(** A market whose only product is the one deleted is left as it was or
    dropped, never kept with an empty catalog. *)
Lemma del_then_prune_only_product market product vendor (x : price) w :
  let kept m := Dict.get vendor m = Some [(product, x)] \/ Dict.get vendor m = None in
  ledger_wf (markets w) /\ kept (markets w) ->
  let w' := fst ((del_entry market product ;; prune market) w) in
  ledger_wf (markets w') /\ kept (markets w').
Proof.
  intros kept [Hwf Hkept]. cbv zeta.
  split; [now apply del_then_prune_wf|]. rewrite del_then_prune_run.
  destruct (Dict.get market (markets w)) as [its_products|] eqn:G; [|exact Hkept].
  destruct (Dict.del product its_products) as [remaining|] eqn:Dp; [|exact Hkept].
  destruct (String.eqb_spec market vendor) as [->|Hne].
  - destruct Hkept as [Hk|Hk]; unfold ledger, catalog in Hk, G; [|congruence].
    rewrite Hk in G. inversion G; subst its_products. simpl in Dp.
    rewrite String.eqb_refl in Dp. inversion Dp; subst remaining.
    destruct (Dict.del vendor (markets w)) as [m'|] eqn:D; simpl.
    + right. now apply (DictFacts.get_del_same _ _ _ (proj1 Hwf) D).
    + apply DictFacts.del_None in D. unfold ledger, catalog in *. congruence.
  - assert (Hne' : vendor <> market) by congruence.
    destruct remaining as [|item remaining].
    + destruct (Dict.del market (markets w)) as [m'|] eqn:D; simpl;
        unfold kept.
      * now rewrite (DictFacts.get_del_other _ _ _ _ Hne' D).
      * now rewrite DictFacts.get_set_other.
    + simpl. unfold kept. now rewrite DictFacts.get_set_other.
Qed.

End Deleting.

Section DeleteProduct.

Context {price : Type}.
Implicit Types (w : world price) (m : @ledger price).
Local Open Scope py_scope.

(** The world an ["all"] call ends in is the one its loop ends in. *)
Lemma delete_all_world product s w :
  lower s = "all" ->
  fst (delete_product product (Str s) w)
  = fst (for_market_in_markets product (Dict.keys (markets w)) w).
Proof.
  intros Hall. rewrite delete_all_run by assumption.
  unfold bind, get_markets, ret.
  now destruct (for_market_in_markets product (Dict.keys (markets w)) w)
    as [w1 [[]|e]].
Qed.

(** The ledger a call on one named market ends with is the one the handling
    of that market ends with. *)
Lemma delete_single_markets product s w :
  String.eqb (lower s) "all" = false ->
  markets (fst (delete_product product (Str s) w))
  = markets (fst ((del_entry s product ;; prune s) w)).
Proof.
  intros Hnot. rewrite delete_single_run by assumption.
  destruct ((del_entry s product ;; prune s) w) as [w1 [b|e]].
  - simpl. apply update_json_markets.
  - destruct e; reflexivity.
Qed.

Lemma delete_product_inv (Inv : @ledger price -> Prop) product :
  (forall market w,
     Inv (markets w) ->
     Inv (markets (fst ((del_entry market product ;; prune market) w)))) ->
  forall in_market w,
    Inv (markets w) -> Inv (markets (fst (delete_product product in_market w))).
Proof.
  intros Hstep [s|l] w Hw.
  - destruct (String.eqb (lower s) "all") eqn:E.
    + apply String.eqb_eq in E. rewrite delete_all_world by assumption.
      now apply (for_market_in_markets_inv (fun w => Inv (markets w))).
    + rewrite delete_single_markets by assumption. now apply Hstep.
  - exact Hw.
Qed.

(** The ["all"] branch never writes the document. *)
Lemma delete_all_disk product s w :
  lower s = "all" -> disk (fst (delete_product product (Str s) w)) = disk w.
Proof.
  intros Hall. rewrite delete_all_world by assumption.
  apply (for_market_in_markets_inv (fun w' => disk w' = disk w)); [|reflexivity].
  intros market w' Hw'. now rewrite del_then_prune_disk.
Qed.

(** A named market that is not in the ledger, or
    does not carry the product, gives [False] and changes neither the ledger
    nor the document. *)
Lemma delete_product_missing product s w :
  String.eqb (lower s) "all" = false ->
  price_of (markets w) s product = None ->
  delete_product product (Str s) w = (w, Return false).
Proof.
  intros Hnot Hmiss. rewrite delete_single_run by assumption.
  rewrite del_then_prune_run. unfold price_of in Hmiss.
  destruct (Dict.get s (markets w)) as [its_products|]; [|reflexivity].
  apply DictFacts.del_None in Hmiss. now rewrite Hmiss.
Qed.

Lemma set_nonempty (V : Type) k (v : V) (d : Dict.t V) : Dict.set k v d <> [].
Proof. destruct d as [|[k' v'] d]; simpl; [|destruct (String.eqb k' k)]; discriminate. Qed.

End DeleteProduct.

(** C5: starting from a ledger without empty catalogs, [update_product] and
    [delete_product], whatever its target and however it ends, leave a ledger
    without empty catalogs; a market whose only product is the one to delete
    is either left as it was or dropped from the ledger, and it is dropped
    when it is the market named in the call, which never returns [False] and
    returns [True] when the ledger left can be written. *)
Theorem no_empty_catalog_invariant (price : Type) (w : world price) :
  ledger_wf (markets w) ->
  no_empty_catalog (markets w) ->
  (forall product vendor cost,
     no_empty_catalog (markets (fst (update_product product vendor cost w)))) /\
  (forall product in_market,
     no_empty_catalog (markets (fst (delete_product product in_market w)))) /\
  (forall product vendor x in_market,
     Dict.get vendor (markets w) = Some [(product, x)] ->
     let m' := markets (fst (delete_product product in_market w)) in
     Dict.get vendor m' = Some [(product, x)] \/ Dict.get vendor m' = None) /\
  (forall product vendor x,
     Dict.get vendor (markets w) = Some [(product, x)] ->
     String.eqb (lower vendor) "all" = false ->
     let r := delete_product product (Str vendor) w in
     Dict.get vendor (markets (fst r)) = None /\
     snd r <> Return false /\
     (ledger_encodable (markets (fst r)) = true -> snd r = Return true)).
Proof.
  intros Hwf Hinv. split; [|split; [|split]].
  - intros product vendor cost. rewrite update_product_markets.
    apply Forall_set; [assumption|]. intros k. simpl. apply set_nonempty.
  - intros product in_market.
    apply (delete_product_inv no_empty_catalog); [|assumption].
    intros market w'. apply del_then_prune_no_empty.
  - intros product vendor x in_market Hget. cbv zeta.
    apply (delete_product_inv
             (fun m => ledger_wf m /\
                       (Dict.get vendor m = Some [(product, x)] \/
                        Dict.get vendor m = None))); [|auto].
    intros market w' H.
    exact (del_then_prune_only_product market product vendor x w' H).
  - intros product vendor x Hget Hnot. cbv zeta.
    rewrite delete_single_run by assumption. rewrite del_then_prune_run.
    destruct (Dict.get vendor (markets w)) as [c|] eqn:G;
      [|exfalso; unfold ledger, catalog in *; congruence].
    assert (Hc : c = [(product, x)])
      by (unfold ledger, catalog in *; congruence).
    subst c. simpl. rewrite String.eqb_refl.
    destruct (Dict.del vendor (markets w)) as [m'|] eqn:D;
      [|apply DictFacts.del_None in D; unfold ledger, catalog in *; congruence].
    cbn [fst snd]. rewrite update_json_markets, update_json_outcome.
    cbn [markets]. split; [|split].
    + exact (DictFacts.get_del_same _ _ _ (proj1 Hwf) D).
    + destruct (ledger_encodable m'); discriminate.
    + intros Henc. now rewrite Henc.
Qed.

Lemma no_empty_catalog_invariant_witness :
  let w := world_of scenario_ledger in
  (forall product vendor cost,
     no_empty_catalog (markets (fst (update_product product vendor cost w)))) /\
  (forall product in_market,
     no_empty_catalog (markets (fst (delete_product product in_market w)))) /\
  (forall product vendor x in_market,
     Dict.get vendor (markets w) = Some [(product, x)] ->
     let m' := markets (fst (delete_product product in_market w)) in
     Dict.get vendor m' = Some [(product, x)] \/ Dict.get vendor m' = None) /\
  (forall product vendor x,
     Dict.get vendor (markets w) = Some [(product, x)] ->
     String.eqb (lower vendor) "all" = false ->
     let r := delete_product product (Str vendor) w in
     Dict.get vendor (markets (fst r)) = None /\
     snd r <> Return false /\
     (ledger_encodable (markets (fst r)) = true -> snd r = Return true)).
Proof.
  exact (no_empty_catalog_invariant Q (world_of scenario_ledger)
           scenario_ledger_wf scenario_ledger_no_empty).
Defined.

(** On the sample, [delete_product("Bread", "A")] drops
    market [A], whose only product was [Bread], and writes the document. *)
Lemma delete_only_product_sample :
  delete_product "Bread" (Str "A") (world_of scenario_ledger)
  = (World [("B", [("Bread", 1.5%Q); ("Milk", 1.0%Q)])]
           [(json_file,
             Doc (json_dump [("B", [("Bread", 1.5%Q); ("Milk", 1.0%Q)])]))],
     Return true).
Proof. reflexivity. Qed.

(** ** The ["all"] sentinel *)

Lemma lower_ascii_a c : lower_ascii c = "a"%char -> c = "a"%char \/ c = "A"%char.
Proof.
  destruct c as [[] [] [] [] [] [] [] []]; vm_compute; intros H;
    try discriminate; auto.
Qed.

Lemma lower_ascii_l c : lower_ascii c = "l"%char -> c = "l"%char \/ c = "L"%char.
Proof.
  destruct c as [[] [] [] [] [] [] [] []]; vm_compute; intros H;
    try discriminate; auto.
Qed.

(** The strings taken for the sentinel. *)
Lemma lower_all_spellings s :
  lower s = "all" <->
  In s ["all"; "alL"; "aLl"; "aLL"; "All"; "AlL"; "ALl"; "ALL"].
Proof.
  split.
  - destruct s as [|c1 [|c2 [|c3 [|c4 s]]]]; simpl; try discriminate.
    intros H. injection H as H1 H2 H3.
    apply lower_ascii_a in H1. apply lower_ascii_l in H2, H3.
    destruct H1, H2, H3; subst; tauto.
  - simpl. intros H. repeat (destruct H as [<-|H]; [reflexivity|]).
    contradiction.
Qed.

(** C9: a string whose lower-case form is ["all"] is the sentinel: the call
    runs the loop over every market, exactly as with ["all"] itself, and the
    branch for a single named market is not reached (nothing is written to
    the document). *)
Theorem delete_product_sentinel_any_case
  (price : Type) (product s : string) (w : world price) :
  lower s = "all" ->
  delete_product product (Str s) w = delete_product product (Str "all") w /\
  delete_product product (Str s) w
  = bind get_markets
      (fun m => bind (for_market_in_markets product (Dict.keys m))
                     (fun _ => ret true)) w /\
  disk (fst (delete_product product (Str s) w)) = disk w.
Proof.
  intros Hall. split; [|split].
  - rewrite (delete_all_run product s w Hall).
    now rewrite (delete_all_run product "all" w).
  - now apply delete_all_run.
  - now apply delete_all_disk.
Qed.

Lemma delete_product_sentinel_any_case_witness :
  let w := world_of all_ledger in
  lower "All" = "all" /\
  delete_product "Milk" (Str "All") w = delete_product "Milk" (Str "all") w /\
  delete_product "Milk" (Str "All") w
  = bind get_markets
      (fun m => bind (for_market_in_markets "Milk" (Dict.keys m))
                     (fun _ => ret true)) w /\
  disk (fst (delete_product "Milk" (Str "All") w)) = disk w.
Proof.
  split; [reflexivity|].
  exact (delete_product_sentinel_any_case Q "Milk" "All" (world_of all_ledger)
           eq_refl).
Defined.

(** A market named [All] keeps its product when named in the call. *)
Lemma market_named_All_sample :
  delete_product "Milk" (Str "All") (world_of all_ledger)
  = (world_of all_ledger, Return true).
Proof. reflexivity. Qed.

(** ** Where the code departs from its documentation *)

(** C1: [find_product] reports the pairs in the order of the markets, not by
    price: with [Milk] at 1.50 in the first market and at 1.20 in the second
    the dearer offer comes first. *)
Theorem find_product_not_sorted :
  find_product "Milk" (world_of milk_ledger)
  = (world_of milk_ledger, Return [("Vendor A", 1.5%Q); ("Vendor B", 1.2%Q)]) /\
  ~ ascending [("Vendor A", 1.5%Q); ("Vendor B", 1.2%Q)].
Proof.
  split; [reflexivity|].
  unfold ascending. intros H. inversion H as [|a l Hs Hd]; subst.
  inversion Hd as [|b l' Hle]; subst. simpl in Hle.
  unfold Qle in Hle. simpl in Hle. lia.
Qed.

(** C2: the ["all"] branch looks for the product in the market's name, not
    in its catalog: [Milk] stays in market [B], [True] is returned and the
    document is not written. *)
Theorem delete_all_leaves_product :
  let r := delete_product "Milk" (Str "all") (world_of scenario_ledger) in
  r = (world_of scenario_ledger, Return true) /\
  price_of (markets (fst r)) "B" "Milk" = Some 1.0%Q /\
  disk (fst r) = [].
Proof. cbv zeta. repeat split. Qed.

(** When the product is part of a market's name the ["all"] branch raises:
    [KeyError] for a market that does not carry the product, [RuntimeError]
    once a market has been dropped. *)
Lemma delete_all_raises_sample :
  delete_product "Milk" (Str "all")
    (world_of [("Milk Shop", [("Bread", 2.0%Q)])])
  = (world_of [("Milk Shop", [("Bread", 2.0%Q)])], Raise KeyError) /\
  delete_product "Milk" (Str "all")
    (world_of [("Milk Shop", [("Milk", 1.0%Q)]); ("B", [("Milk", 1.2%Q)])])
  = (world_of [("B", [("Milk", 1.2%Q)])], Raise RuntimeError).
Proof. split; reflexivity. Qed.

(** C3: a list of market names never gets past [in_market.lower()]: the call
    raises [AttributeError] instead of returning [False]; ledger and
    document are left as they were. *)
Theorem delete_product_list_raises
  (price : Type) (product : string) (l : list string) (w : world price) :
  delete_product product (Lst l) w = (w, Raise AttributeError).
Proof. apply delete_list_run. Qed.

(** ** Further properties of the queries *)

Section Queries.

Context {price : Type}.
Implicit Types (w : world price) (m : @ledger price) (c : @catalog price).

Lemma filter_absent product c :
  ~ In product (Dict.keys c) ->
  filter (fun item => String.eqb (fst item) product) c = [].
Proof.
  induction c as [|[p y] c IH]; simpl; [reflexivity|].
  intros Hn. destruct (String.eqb_spec p product); [tauto|]. apply IH. tauto.
Qed.

(** The offers of one market are read off its catalog. *)
Lemma offers_of_get product vendor c :
  Dict.wf c ->
  offers_of product (vendor, c)
  = match Dict.get product c with
    | Some x => [(vendor, x)]
    | None => []
    end.
Proof.
  intros Hwf. destruct (Dict.get product c) as [x|] eqn:G.
  - now apply offers_of_carried.
  - unfold offers_of. simpl. rewrite filter_absent; [reflexivity|].
    now apply DictFacts.get_None_keys.
Qed.

Lemma offers_by_price_of m product (part : @ledger price) :
  (forall vendor c, In (vendor, c) part -> Dict.get vendor m = Some c) ->
  Forall (fun market => Dict.wf (snd market)) part ->
  flat_map (offers_of product) part
  = flat_map
      (fun vendor =>
         match price_of m vendor product with
         | Some x => [(vendor, x)]
         | None => []
         end)
      (Dict.keys part).
Proof.
  induction part as [|[vendor c] part IH]; intros Hget Hwf; simpl; [reflexivity|].
  inversion Hwf as [|? ? Hc Hrest]; subst. simpl in Hc.
  rewrite IH; [|intros v c' Hin; apply Hget; now right|assumption].
  f_equal. rewrite offers_of_get by assumption.
  unfold price_of. rewrite (Hget vendor c); [reflexivity|now left].
Qed.

Lemma vendors_of_offers (f : string -> option price) vendor x l :
  In (vendor, x)
     (flat_map (fun v => match f v with Some y => [(v, y)] | None => [] end) l) ->
  In vendor l /\ f vendor = Some x.
Proof.
  intros H. apply in_flat_map in H as (v & Hv & Hin).
  destruct (f v) as [y|] eqn:E; simpl in Hin; [|contradiction].
  destruct Hin as [Heq|[]]. inversion Heq; subst. auto.
Qed.

Lemma vendors_of_offers_NoDup (f : string -> option price) l :
  NoDup l ->
  NoDup (map fst
           (flat_map (fun v => match f v with Some y => [(v, y)] | None => [] end) l)).
Proof.
  induction l as [|v l IH]; intros Hnd; simpl; [constructor|].
  inversion Hnd as [|? ? Hnot Hrest]; subst.
  destruct (f v) as [y|]; simpl; [|now apply IH].
  constructor; [|now apply IH].
  intros Hin. apply in_map_iff in Hin as ([v' x] & Heq & Hin). simpl in Heq.
  subst v'. apply vendors_of_offers in Hin. tauto.
Qed.

Lemma In_product_names m name :
  In name (product_names m) <->
  exists vendor c, In (vendor, c) m /\ In name (Dict.keys c).
Proof.
  unfold product_names. rewrite in_flat_map. split.
  - intros ([v c] & Hin & Hn). eauto.
  - intros (v & c & Hin & Hn). exists (v, c). auto.
Qed.

Lemma In_keys_item (V : Type) name (d : Dict.t V) :
  In name (Dict.keys d) <-> exists v, In (name, v) d.
Proof.
  unfold Dict.keys. rewrite in_map_iff. split.
  - intros ([k v] & Heq & Hin). simpl in Heq. subst k. eauto.
  - intros (v & Hin). exists (name, v). auto.
Qed.

(** Setting one product leaves the offers for every other product. *)
Lemma offers_of_set_other product other vendor (cost : price) c :
  other <> product ->
  offers_of other (vendor, Dict.set product cost c) = offers_of other (vendor, c).
Proof.
  intros Hne. unfold offers_of. simpl. f_equal.
  induction c as [|[k v] c IH]; simpl.
  - destruct (String.eqb_spec product other); congruence.
  - destruct (String.eqb_spec k product) as [->|]; simpl.
    + destruct (String.eqb_spec product other); congruence.
    + now rewrite IH.
Qed.

Lemma offers_after_set other vendor (its_products : @catalog price) m :
  offers_of other (vendor, its_products)
  = offers_of other (vendor, catalog_of m vendor) ->
  flat_map (offers_of other) (Dict.set vendor its_products m)
  = flat_map (offers_of other) m.
Proof.
  induction m as [|[k c] m IH]; simpl; intros Hsame.
  - rewrite app_nil_r. exact Hsame.
  - unfold catalog_of in Hsame. simpl in Hsame.
    destruct (String.eqb_spec k vendor) as [->|]; simpl.
    + f_equal. exact Hsame.
    + f_equal. apply IH. exact Hsame.
Qed.

Lemma names_after_set name vendor (its_products : @catalog price) m :
  (forall n, In n (Dict.keys (catalog_of m vendor)) ->
             In n (Dict.keys its_products)) ->
  In name (product_names (Dict.set vendor its_products m)) <->
  In name (Dict.keys its_products) \/ In name (product_names m).
Proof.
  induction m as [|[k c] m IH]; simpl; intros Hincl.
  - rewrite app_nil_r. tauto.
  - unfold catalog_of in Hincl. simpl in Hincl.
    destruct (String.eqb_spec k vendor) as [->|]; simpl;
      rewrite !in_app_iff.
    + specialize (Hincl name). tauto.
    + rewrite (IH Hincl). tauto.
Qed.

End Queries.

(** X1: in a well-formed ledger [find_product] reports, market after market
    in the ledger's order, the price each market has for the product; no
    market comes twice. *)
Theorem find_product_by_market
  (price : Type) (product : string) (m : @ledger price) :
  ledger_wf m ->
  find_product_scan product m
  = flat_map
      (fun vendor =>
         match price_of m vendor product with
         | Some x => [(vendor, x)]
         | None => []
         end)
      (Dict.keys m) /\
  NoDup (map fst (find_product_scan product m)).
Proof.
  intros [Hm Hc].
  assert (Heq : find_product_scan product m
                = flat_map
                    (fun vendor =>
                       match price_of m vendor product with
                       | Some x => [(vendor, x)]
                       | None => []
                       end)
                    (Dict.keys m)).
  { rewrite find_product_scan_flat. apply offers_by_price_of; [|assumption].
    intros vendor c Hin. now apply DictFacts.In_get. }
  split; [exact Heq|]. rewrite Heq. now apply vendors_of_offers_NoDup.
Qed.

Lemma find_product_by_market_witness :
  find_product_scan "Bread" scenario_ledger
  = flat_map
      (fun vendor =>
         match price_of scenario_ledger vendor "Bread" with
         | Some x => [(vendor, x)]
         | None => []
         end)
      (Dict.keys scenario_ledger) /\
  NoDup (map fst (find_product_scan "Bread" scenario_ledger)).
Proof.
  exact (find_product_by_market Q "Bread" scenario_ledger scenario_ledger_wf).
Defined.

(** X2: the products [list_products] lists are those for which
    [find_product] finds a market. *)
Theorem listed_iff_found (price : Type) (product : string) (m : @ledger price) :
  In product (list_products_scan m) <-> find_product_scan product m <> [].
Proof.
  rewrite list_products_scan_first_seen, first_seen_In, In_product_names.
  split.
  - intros (vendor & c & Hin & Hname) Hnil.
    apply In_keys_item in Hname as (x & Hx).
    assert (Hfound : In (vendor, x) (find_product_scan product m))
      by (apply find_product_scan_In; eauto).
    rewrite Hnil in Hfound. contradiction.
  - intros Hne.
    destruct (find_product_scan product m) as [|[vendor x] l] eqn:E;
      [congruence|].
    assert (Hfound : In (vendor, x) (find_product_scan product m))
      by (rewrite E; now left).
    apply find_product_scan_In in Hfound as (c & Hin & Hx).
    exists vendor, c. split; [assumption|]. apply In_keys_item. eauto.
Qed.

(** X3: [update_product(P, V, c)] does not change what [find_product]
    reports for any other product. *)
Theorem update_product_other_queries
  (price : Type) (product vendor other : string) (cost : price) (w : world price) :
  other <> product ->
  find_product_scan other (markets (fst (update_product product vendor cost w)))
  = find_product_scan other (markets w).
Proof.
  intros Hne. rewrite update_product_markets.
  rewrite !find_product_scan_flat. apply offers_after_set.
  now apply offers_of_set_other.
Qed.

Lemma update_product_other_queries_witness :
  find_product_scan "Milk"
    (markets (fst (update_product "Bread" "C" 3%Q (world_of scenario_ledger))))
  = find_product_scan "Milk" (markets (world_of scenario_ledger)).
Proof.
  apply (update_product_other_queries Q "Bread" "C" "Milk" 3%Q
           (world_of scenario_ledger)).
  discriminate.
Defined.

(** X4: after [update_product(P, V, c)] the products listed are those listed
    before, and [P]. *)
Theorem update_product_listed
  (price : Type) (product vendor name : string) (cost : price) (w : world price) :
  In name (list_products_scan (markets (fst (update_product product vendor cost w))))
  <-> name = product \/ In name (list_products_scan (markets w)).
Proof.
  rewrite update_product_markets.
  rewrite !list_products_scan_first_seen, !first_seen_In.
  assert (Hkeys : forall n,
            In n (Dict.keys (Dict.set product cost (catalog_of (markets w) vendor)))
            <-> n = product \/ In n (Dict.keys (catalog_of (markets w) vendor))).
  { intros n. rewrite DictFacts.keys_set.
    destruct (Dict.mem product (catalog_of (markets w) vendor)) eqn:E.
    - split; [tauto|]. intros [->|H]; [|assumption].
      apply DictFacts.mem_true_get in E as (x & Hx).
      apply In_keys_item. exists x. now apply DictFacts.get_Some_In.
    - rewrite in_app_iff. simpl. intuition. }
  rewrite names_after_set by (intros n Hn; apply Hkeys; now right).
  rewrite Hkeys. split; [|tauto].
  intros [[H|H]|H]; auto. right. apply In_product_names.
  unfold catalog_of in H.
  destruct (Dict.get vendor (markets w)) as [c|] eqn:G; [|contradiction].
  exists vendor, c. split; [|assumption]. now apply DictFacts.get_Some_In.
Qed.

(** ** Further properties of [delete_product] *)

Section DeleteSingle.

Context {price : Type}.
Implicit Types (w : world price) (m : @ledger price) (c : @catalog price).
Local Open Scope py_scope.

Lemma del_of_get (V : Type) k (v : V) (d : Dict.t V) :
  Dict.get k d = Some v -> exists d', Dict.del k d = Some d'.
Proof.
  intros G. destruct (Dict.del k d) as [d'|] eqn:D; [eauto|].
  apply DictFacts.del_None in D. congruence.
Qed.

Lemma keys_del (V : Type) k (d d' : Dict.t V) :
  Dict.wf d -> Dict.del k d = Some d' ->
  Dict.keys d' = filter (fun x => negb (String.eqb k x)) (Dict.keys d).
Proof.
  unfold Dict.wf. revert d'. induction d as [|[k' v'] d IH]; simpl; [discriminate|].
  intros d' Hwf. inversion Hwf as [|? ? Hnot Hnd]; subst.
  rewrite (String.eqb_sym k k'). destruct (String.eqb_spec k' k) as [->|Hne]; simpl.
  - intros H. inversion H; subst. symmetry.
    apply forallb_filter_id. apply forallb_forall. intros x Hx.
    destruct (String.eqb_spec k x); [subst; contradiction | reflexivity].
  - destruct (Dict.del k d) as [r|] eqn:E; [|discriminate].
    intros H. inversion H; subst. simpl. f_equal. now apply IH.
Qed.

Lemma del_snoc_fresh (V : Type) k (v : V) (d : Dict.t V) :
  ~ In k (Dict.keys d) -> Dict.del k (d ++ [(k, v)]) = Some d.
Proof.
  induction d as [|[k' v'] d IH]; simpl; intros Hnot.
  - now rewrite String.eqb_refl.
  - destruct (String.eqb_spec k' k); [tauto|]. rewrite IH; tauto.
Qed.

Lemma set_own_value (V : Type) k (v : V) (d : Dict.t V) :
  Dict.get k d = Some v -> Dict.set k v d = d.
Proof.
  induction d as [|[k' v'] d IH]; simpl; [discriminate|].
  destruct (String.eqb k' k); intros H; [congruence|]. now rewrite IH.
Qed.

Lemma filter_flat_map (A B : Type) (f : B -> bool) (g : A -> list B) l :
  filter f (flat_map g l) = flat_map (fun a => filter f (g a)) l.
Proof.
  induction l as [|a l IH]; simpl; [reflexivity|].
  now rewrite filter_app, IH.
Qed.

Lemma flat_map_filter (A B : Type) (f : A -> bool) (g : A -> list B) l :
  flat_map g (filter f l) = flat_map (fun a => if f a then g a else []) l.
Proof.
  induction l as [|a l IH]; simpl; [reflexivity|].
  destruct (f a); simpl; now rewrite IH.
Qed.

(** A call on one named market that carries the product. *)
Lemma delete_single_success product vendor (x : price) w :
  ledger_wf (markets w) ->
  String.eqb (lower vendor) "all" = false ->
  price_of (markets w) vendor product = Some x ->
  exists m',
    delete_product product (Str vendor) w
    = (fst (update_json (World m' (disk w))),
       match snd (update_json (World m' (disk w))) with
       | Return _ => Return true
       | Raise e => Raise e
       end) /\
    ledger_wf m' /\
    price_of m' vendor product = None /\
    (forall vendor' product',
       vendor' <> vendor \/ product' <> product ->
       price_of m' vendor' product' = price_of (markets w) vendor' product') /\
    (Dict.keys m' = Dict.keys (markets w) \/
     Dict.keys m'
     = filter (fun v => negb (String.eqb vendor v)) (Dict.keys (markets w))).
Proof.
  intros Hwf Hnot Hprice.
  pose proof (del_then_prune_wf vendor product w Hwf) as Hwf'.
  rewrite delete_single_run by assumption.
  rewrite del_then_prune_run in *. unfold price_of in Hprice.
  destruct (Dict.get vendor (markets w)) as [c|] eqn:G; [|discriminate].
  assert (Hc : Dict.wf c).
  { pose proof (ledger_wf_catalog_of (markets w) vendor Hwf) as H.
    unfold catalog_of in H. now rewrite G in H. }
  destruct (del_of_get _ _ _ _ Hprice) as (remaining & Dp). rewrite Dp in *.
  pose proof (DictFacts.get_del_same _ _ _ Hc Dp) as Hgone.
  assert (Hother : forall product', product' <> product ->
            Dict.get product' remaining = Dict.get product' c)
    by (intros p' Hp'; exact (DictFacts.get_del_other _ _ _ _ Hp' Dp)).
  destruct remaining as [|item remaining].
  - destruct (del_of_get _ _ _ _ G) as (m' & D). rewrite D in *.
    exists m'. simpl in Hwf'. split; [reflexivity|]. split; [assumption|].
    pose proof (DictFacts.get_del_same _ _ _ (proj1 Hwf) D) as Hv.
    split; [|split].
    + unfold price_of. now rewrite Hv.
    + intros vendor' product' Hne. unfold price_of.
      destruct (String.eqb_spec vendor' vendor) as [->|Hv'].
      * rewrite Hv, G. destruct Hne as [Hne|Hne]; [congruence|].
        now rewrite <- (Hother product' Hne).
      * now rewrite (DictFacts.get_del_other _ _ _ _ Hv' D).
    + right. exact (keys_del _ _ _ _ (proj1 Hwf) D).
  - exists (Dict.set vendor (item :: remaining) (markets w)). simpl in Hwf'.
    split; [reflexivity|]. split; [assumption|]. split; [|split].
    + unfold price_of. now rewrite DictFacts.get_set_same.
    + intros vendor' product' Hne. unfold price_of.
      destruct (String.eqb_spec vendor' vendor) as [->|Hv'].
      * rewrite DictFacts.get_set_same, G.
        destruct Hne as [Hne|Hne]; [congruence|]. now apply Hother.
      * now rewrite DictFacts.get_set_other.
    + left. rewrite DictFacts.keys_set. unfold Dict.mem. now rewrite G.
Qed.

End DeleteSingle.

(** When the outcome of the write is [True] for the caller, the write
    returned. *)
Lemma update_json_true (price : Type) (w : world price) :
  match snd (update_json w) with
  | Return _ => Return true
  | Raise e => Raise e
  end = Return true ->
  snd (update_json w) = Return tt.
Proof.
  rewrite update_json_outcome.
  destruct (ledger_encodable (markets w)); [reflexivity | discriminate].
Qed.

Lemma update_json_not_false (price : Type) (w : world price) :
  match snd (update_json w) with
  | Return _ => Return true
  | Raise e => Raise e
  end <> Return false /\
  match snd (update_json w) with
  | Return _ => Return true
  | Raise e => @Raise bool e
  end <> Raise KeyError.
Proof.
  rewrite update_json_outcome.
  destruct (ledger_encodable (markets w)); split; discriminate.
Qed.

(** X5: a call on one named market (not a spelling of ["all"]) returns
    [False] exactly when the market does not carry the product, and then
    changes neither ledger nor document; no [KeyError] comes out of it. *)
Theorem delete_single_result
  (price : Type) (product vendor : string) (w : world price) :
  String.eqb (lower vendor) "all" = false ->
  let r := delete_product product (Str vendor) w in
  (snd r = Return false <-> price_of (markets w) vendor product = None) /\
  (price_of (markets w) vendor product = None -> fst r = w) /\
  snd r <> Raise KeyError.
Proof.
  intros Hnot. cbv zeta.
  destruct (price_of (markets w) vendor product) as [x|] eqn:Hp.
  - assert (H : snd (delete_product product (Str vendor) w) <> Return false /\
               snd (delete_product product (Str vendor) w) <> Raise KeyError).
    { rewrite delete_single_run by assumption. rewrite del_then_prune_run.
      unfold price_of in Hp.
      destruct (Dict.get vendor (markets w)) as [c|] eqn:G; [|discriminate].
      destruct (del_of_get _ _ _ _ Hp) as (remaining & Dp). rewrite Dp.
      destruct remaining; [|apply update_json_not_false].
      destruct (del_of_get _ _ _ _ G) as (m' & D). rewrite D.
      apply update_json_not_false. }
    destruct H as [H1 H2]. split; [|split].
    + split; [contradiction | discriminate].
    + discriminate.
    + exact H2.
  - rewrite delete_product_missing by assumption. simpl.
    split; [tauto|]. split; [reflexivity | discriminate].
Qed.

Lemma delete_single_result_witness :
  let w := world_of scenario_ledger in
  let r := delete_product "Milk" (Str "A") w in
  (snd r = Return false <-> price_of (markets w) "A" "Milk" = None) /\
  (price_of (markets w) "A" "Milk" = None -> fst r = w) /\
  snd r <> Raise KeyError.
Proof.
  exact (delete_single_result Q "Milk" "A" (world_of scenario_ledger) eq_refl).
Defined.

(** X6: deleting a product from a named market that carries it never returns
    [False]; it removes that one price from the ledger in memory and keeps
    every other price, whether or not the write that follows succeeds; when
    the call returns [True] the document holds the resulting ledger. *)
Theorem delete_single_effect
  (price : Type) (product vendor : string) (x : price) (w : world price) :
  ledger_wf (markets w) ->
  String.eqb (lower vendor) "all" = false ->
  price_of (markets w) vendor product = Some x ->
  let r := delete_product product (Str vendor) w in
  snd r <> Return false /\
  price_of (markets (fst r)) vendor product = None /\
  (forall vendor' product',
     vendor' <> vendor \/ product' <> product ->
     price_of (markets (fst r)) vendor' product'
     = price_of (markets w) vendor' product') /\
  (snd r = Return true ->
   Dict.get json_file (disk (fst r)) = Some (Doc (json_dump (markets (fst r))))).
Proof.
  intros Hwf Hnot Hprice. cbv zeta.
  destruct (delete_single_success product vendor x w Hwf Hnot Hprice)
    as (m' & -> & _ & Hgone & Hframe & _).
  cbn [fst snd]. rewrite update_json_markets. cbn [markets].
  split; [apply update_json_not_false|]. repeat split; try assumption.
  intros Htrue. apply update_json_true in Htrue.
  rewrite (update_json_returns _ Htrue). simpl.
  apply DictFacts.get_set_same.
Qed.

Lemma delete_single_effect_witness :
  let w := world_of scenario_ledger in
  let r := delete_product "Bread" (Str "B") w in
  snd r <> Return false /\
  price_of (markets (fst r)) "B" "Bread" = None /\
  (forall vendor' product',
     vendor' <> "B" \/ product' <> "Bread" ->
     price_of (markets (fst r)) vendor' product'
     = price_of (markets w) vendor' product') /\
  (snd r = Return true ->
   Dict.get json_file (disk (fst r)) = Some (Doc (json_dump (markets (fst r))))).
Proof.
  exact (delete_single_effect Q "Bread" "B" 1.5%Q (world_of scenario_ledger)
           scenario_ledger_wf eq_refl eq_refl).
Defined.

(** X7: after a deletion from a named market that carries the product
    [find_product] reports what it reported before
    without the pair of the market deleted from, in the same order. *)
Theorem find_product_after_delete
  (price : Type) (product vendor : string) (x : price) (w : world price) :
  ledger_wf (markets w) ->
  String.eqb (lower vendor) "all" = false ->
  price_of (markets w) vendor product = Some x ->
  find_product_scan product
    (markets (fst (delete_product product (Str vendor) w)))
  = filter (fun offer => negb (String.eqb vendor (fst offer)))
      (find_product_scan product (markets w)).
Proof.
  intros Hwf Hnot Hprice.
  destruct (delete_single_success product vendor x w Hwf Hnot Hprice)
    as (m' & -> & Hwf' & Hgone & Hframe & Hkeys).
  cbn [fst]. rewrite update_json_markets. cbn [markets].
  assert (Hm : find_product_scan product (markets w)
               = flat_map
                   (fun v => match price_of (markets w) v product with
                             | Some y => [(v, y)]
                             | None => []
                             end)
                   (Dict.keys (markets w))).
  { rewrite find_product_scan_flat. apply offers_by_price_of; [|apply Hwf].
    intros v c Hin. apply DictFacts.In_get; [apply Hwf | assumption]. }
  assert (Hm' : find_product_scan product m'
                = flat_map
                    (fun v => match price_of m' v product with
                              | Some y => [(v, y)]
                              | None => []
                              end)
                    (Dict.keys m')).
  { rewrite find_product_scan_flat. apply offers_by_price_of; [|apply Hwf'].
    intros v c Hin. apply DictFacts.In_get; [apply Hwf' | assumption]. }
  rewrite Hm, Hm', filter_flat_map.
  destruct Hkeys as [-> | ->]; [|rewrite flat_map_filter];
    apply flat_map_ext; intros v;
    destruct (String.eqb_spec vendor v) as [<-|Hne]; simpl;
    try (rewrite Hgone);
    try (rewrite Hframe by (left; congruence));
    try (destruct (price_of (markets w) vendor product); simpl;
         rewrite ?String.eqb_refl; reflexivity);
    try (destruct (price_of (markets w) v product); simpl; [|reflexivity];
         destruct (String.eqb_spec vendor v); [contradiction | reflexivity]).
Qed.

Lemma find_product_after_delete_witness :
  find_product_scan "Bread"
    (markets (fst (delete_product "Bread" (Str "A") (world_of scenario_ledger))))
  = filter (fun offer => negb (String.eqb "A" (fst offer)))
      (find_product_scan "Bread" (markets (world_of scenario_ledger))).
Proof.
  exact (find_product_after_delete Q "Bread" "A" 2.0%Q (world_of scenario_ledger)
           scenario_ledger_wf eq_refl eq_refl).
Defined.

(** X8: adding a product to a market that did not carry it and deleting it
    from that market again gives back the ledger as it was, whatever became
    of the two writes; the second call never returns [False], and when it
    returns [True] the document holds the ledger as it was. *)
Theorem update_then_delete_restores
  (price : Type) (product vendor : string) (cost : price) (w : world price) :
  ledger_wf (markets w) ->
  no_empty_catalog (markets w) ->
  String.eqb (lower vendor) "all" = false ->
  price_of (markets w) vendor product = None ->
  let r := delete_product product (Str vendor)
             (fst (update_product product vendor cost w)) in
  markets (fst r) = markets w /\
  snd r <> Return false /\
  (snd r = Return true ->
   Dict.get json_file (disk (fst r)) = Some (Doc (json_dump (markets w)))).
Proof.
  intros Hwf Hinv Hnot Hprice. cbv zeta.
  set (w1 := fst (update_product product vendor cost w)).
  assert (Hstep : exists b,
            bind (del_entry vendor product) (fun _ => prune vendor) w1
            = (World (markets w) (disk w1), Return b)).
  { rewrite del_then_prune_run. unfold w1. rewrite !update_product_markets.
    fold w1. rewrite DictFacts.get_set_same.
    unfold price_of in Hprice. unfold catalog_of.
    destruct (Dict.get vendor (markets w)) as [c|] eqn:G.
    - apply DictFacts.get_None_keys in Hprice.
      rewrite (DictFacts.set_fresh _ _ _ Hprice), (del_snoc_fresh _ _ _ _ Hprice).
      assert (Hc : c <> []).
      { apply DictFacts.get_Some_In in G. unfold no_empty_catalog in Hinv.
        rewrite Forall_forall in Hinv. exact (Hinv _ G). }
      destruct c as [|item c]; [congruence|].
      rewrite !DictFacts.set_set_same.
      assert (E : Dict.set vendor (item :: c) (markets w) = markets w)
        by (apply set_own_value; exact G).
      exists false. unfold ledger, catalog in *. now rewrite E.
    - simpl. rewrite String.eqb_refl.
      apply DictFacts.get_None_keys in G.
      rewrite (DictFacts.set_fresh _ _ _ G), (del_snoc_fresh _ _ _ _ G).
      now exists true. }
  destruct Hstep as (b & Hstep).
  rewrite delete_single_run by assumption. rewrite Hstep.
  cbn [fst snd]. rewrite update_json_markets. cbn [markets].
  split; [reflexivity|]. split; [apply update_json_not_false|].
  intros Htrue. apply update_json_true in Htrue.
  rewrite (update_json_returns _ Htrue). simpl.
  apply DictFacts.get_set_same.
Qed.

Lemma update_then_delete_restores_witness :
  let w := world_of scenario_ledger in
  let r := delete_product "Milk" (Str "A") (fst (update_product "Milk" "A" 3%Q w)) in
  markets (fst r) = markets w /\
  snd r <> Return false /\
  (snd r = Return true ->
   Dict.get json_file (disk (fst r)) = Some (Doc (json_dump (markets w)))).
Proof.
  exact (update_then_delete_restores Q "Milk" "A" 3%Q (world_of scenario_ledger)
           scenario_ledger_wf scenario_ledger_no_empty eq_refl eq_refl).
Defined.

(** X9: when [update_product] returns, and when a [delete_product] on a
    named market returns [True], the document loads to the ledger in
    memory. *)
Theorem mutations_keep_document_current (price : Type) (w : world price) :
  ledger_wf (markets w) ->
  (forall product vendor cost,
     snd (update_product product vendor cost w) = Return tt ->
     let w' := fst (update_product product vendor cost w) in
     load_markets (disk w') = Return (Some (markets w'))) /\
  (forall product vendor,
     String.eqb (lower vendor) "all" = false ->
     snd (delete_product product (Str vendor) w) = Return true ->
     let w' := fst (delete_product product (Str vendor) w) in
     load_markets (disk w') = Return (Some (markets w'))).
Proof.
  intros Hwf. split.
  - intros product vendor cost. rewrite update_product_run. cbv zeta.
    intros Hret. rewrite (update_json_returns _ Hret). simpl.
    unfold load_markets. rewrite DictFacts.get_set_same, json_load_dump;
      [reflexivity|].
    apply ledger_wf_set; [assumption|].
    apply DictFacts.wf_set. now apply ledger_wf_catalog_of.
  - intros product vendor Hnot. cbv zeta.
    pose proof (del_then_prune_wf vendor product w Hwf) as Hwf'.
    rewrite delete_single_run by assumption.
    destruct (bind (del_entry vendor product) (fun _ => prune vendor) w)
      as [w1 [b|e]]; cbn [fst snd] in *.
    + intros Htrue. apply update_json_true in Htrue.
      rewrite (update_json_returns _ Htrue). simpl. unfold load_markets.
      now rewrite DictFacts.get_set_same, json_load_dump.
    + destruct e; discriminate.
Qed.

Lemma mutations_keep_document_current_witness :
  let w := world_of scenario_ledger in
  (forall product vendor cost,
     snd (update_product product vendor cost w) = Return tt ->
     let w' := fst (update_product product vendor cost w) in
     load_markets (disk w') = Return (Some (markets w'))) /\
  (forall product vendor,
     String.eqb (lower vendor) "all" = false ->
     snd (delete_product product (Str vendor) w) = Return true ->
     let w' := fst (delete_product product (Str vendor) w) in
     load_markets (disk w') = Return (Some (markets w'))).
Proof.
  exact (mutations_keep_document_current Q (world_of scenario_ledger)
           scenario_ledger_wf).
Defined.

(** X10: when the product's name is part of no market's name, a call with
    ["all"] (the default), in any spelling, deletes nothing, writes nothing
    and returns [True]. *)
Theorem delete_all_without_name_match
  (price : Type) (product s : string) (w : world price) :
  lower s = "all" ->
  forallb (fun market => negb (str_in product market)) (Dict.keys (markets w))
  = true ->
  delete_product product (Str s) w = (w, Return true).
Proof.
  intros Hall Hnone. rewrite delete_all_run by assumption.
  unfold bind at 1. unfold get_markets. unfold bind.
  now rewrite for_market_in_markets_skip.
Qed.

Lemma delete_all_without_name_match_witness :
  delete_product "Bread" (Str "all") (world_of scenario_ledger)
  = (world_of scenario_ledger, Return true).
Proof.
  exact (delete_all_without_name_match Q "Bread" "all" (world_of scenario_ledger)
           eq_refl eq_refl).
Defined.

(** ** Localisation *)

Section Localisation.

Lemma available_from (names available : list string) :
  fold_left
    (fun available_languages language =>
       if negb (String.eqb language "selected")
       then available_languages ++ [language]
       else available_languages)
    names available
  = available ++ filter (fun language => negb (String.eqb language "selected")) names.
Proof.
  revert available. induction names as [|name names IH]; intros available; simpl.
  - now rewrite app_nil_r.
  - rewrite IH. destruct (negb (String.eqb name "selected")); simpl.
    + now rewrite <- app_assoc.
    + reflexivity.
Qed.

Lemma available_filter (loc : Lang.t) :
  list_available_languages loc
  = filter (fun language => negb (String.eqb language "selected"))
      (Dict.keys (Lang.la loc)).
Proof. unfold list_available_languages. now rewrite available_from. Qed.

Lemma In_available (loc : Lang.t) language :
  In language (list_available_languages loc) <->
  Dict.mem language (Lang.la loc) && negb (String.eqb language "selected") = true.
Proof.
  rewrite available_filter, filter_In, andb_true_iff. unfold Dict.mem.
  destruct (Dict.get language (Lang.la loc)) as [v|] eqn:G.
  - assert (In language (Dict.keys (Lang.la loc))).
    { destruct (in_dec string_dec language (Dict.keys (Lang.la loc))) as [|n];
        [assumption|]. apply DictFacts.get_None_keys in n. congruence. }
    tauto.
  - apply DictFacts.get_None_keys in G. intuition discriminate.
Qed.

End Localisation.

(** X11: a [Lang] that could be created uses a language of the selector's
    list, the one named under ["selected"] when that is on the list and
    [English] otherwise, and its strings are that language's table. *)
Theorem Lang_init_language
  (file : string) (fs : Dict.t (Dict.t lval)) (self : Lang.t) :
  Lang.init file fs = inl self ->
  Dict.get file fs = Some (Lang.la self) /\
  In (Lang.o self) (list_available_languages self) /\
  Dict.get (Lang.o self) (Lang.la self) = Some (Lang.lan self) /\
  exists selected,
    Dict.get "selected" (Lang.la self) = Some (LStr selected) /\
    (In selected (list_available_languages self) -> Lang.o self = selected) /\
    (~ In selected (list_available_languages self) -> Lang.o self = "English").
Proof.
  unfold Lang.init.
  destruct (Dict.get file fs) as [la|] eqn:F; [|discriminate].
  destruct (Dict.get "selected" la) as [[selected|t]|] eqn:S; try discriminate.
  destruct (Dict.get
              (if Dict.mem selected la && negb (String.eqb selected "selected")
               then selected else "English") la) as [lan|] eqn:L; [|discriminate].
  intros H. inversion H; subst self. clear H. simpl.
  split; [reflexivity|]. split; [|split; [exact L|]].
  - apply In_available. simpl. unfold Dict.mem at 1. rewrite L.
    simpl. destruct (Dict.mem selected la); simpl; [|reflexivity].
    destruct (String.eqb selected "selected") eqn:E; simpl; [reflexivity|].
    now rewrite E.
  - exists selected. split; [exact S|].
    rewrite In_available. simpl.
    destruct (Dict.mem selected la && negb (String.eqb selected "selected"));
      split; intros; congruence.
Qed.

Lemma Lang_init_language_witness :
  let fs := [("localisation.json", sample_localisation)] in
  Dict.get "localisation.json" fs = Some (Lang.la sample_loc) /\
  In (Lang.o sample_loc) (list_available_languages sample_loc) /\
  Dict.get (Lang.o sample_loc) (Lang.la sample_loc) = Some (Lang.lan sample_loc) /\
  exists selected,
    Dict.get "selected" (Lang.la sample_loc) = Some (LStr selected) /\
    (In selected (list_available_languages sample_loc) ->
     Lang.o sample_loc = selected) /\
    (~ In selected (list_available_languages sample_loc) ->
     Lang.o sample_loc = "English").
Proof.
  exact (Lang_init_language "localisation.json"
           [("localisation.json", sample_localisation)] sample_loc eq_refl).
Defined.



(** X13: the selector never offers ["selected"] as a language, and [change]
    leaves the list of languages as it was. *)
Theorem available_languages_stable
  (loc : Lang.t) (selection : string) (fs : Dict.t (Dict.t lval)) :
  ~ In "selected" (list_available_languages loc) /\
  list_available_languages (fst (Lang.change loc selection fs))
  = list_available_languages loc.
Proof.
  split.
  - rewrite available_filter, filter_In. simpl. intuition discriminate.
  - rewrite !available_filter. unfold Lang.change. simpl.
    rewrite DictFacts.keys_set.
    destruct (Dict.mem "selected" (Lang.la loc)); [reflexivity|].
    rewrite filter_app. simpl. now rewrite app_nil_r.
Qed.

(** ** More on the ["all"] branch, and on repeated updates *)

Section AllBranch.

Context {price : Type}.
Implicit Types (w : world price) (m : @ledger price).
Local Open Scope py_scope.

(** Markets whose name does not contain the product's are passed over. *)
Lemma for_market_in_markets_skip_app product passed todo w :
  forallb (fun market => negb (str_in product market)) passed = true ->
  for_market_in_markets product (passed ++ todo) w
  = for_market_in_markets product todo w.
Proof.
  induction passed as [|market passed IH]; simpl; [reflexivity|].
  intros H. apply andb_prop in H as [H1 H2].
  destruct (str_in product market); [discriminate|]. now apply IH.
Qed.

Lemma price_of_after_update product vendor (cost : price) w vendor' product' :
  price_of (markets (fst (update_product product vendor cost w))) vendor' product'
  = if String.eqb vendor' vendor && String.eqb product' product
    then Some cost
    else price_of (markets w) vendor' product'.
Proof.
  rewrite update_product_markets.
  unfold price_of.
  destruct (String.eqb_spec vendor' vendor) as [->|Hv]; simpl.
  - rewrite DictFacts.get_set_same.
    destruct (String.eqb_spec product' product) as [->|Hp].
    + apply DictFacts.get_set_same.
    + rewrite DictFacts.get_set_other by assumption.
      unfold catalog_of. now destruct (Dict.get vendor (markets w)).
  - now rewrite DictFacts.get_set_other.
Qed.

End AllBranch.

(** X14: in the ["all"] branch the first market whose name contains the
    product's name decides: if it does not carry the product the call raises
    [KeyError] with nothing changed; if the product is all it carries, the
    market is dropped and the call raises [RuntimeError], nothing being
    written to the document. *)
Theorem delete_all_first_match
  (price : Type) (product s vendor : string) (passed rest : list string)
  (w : world price) :
  lower s = "all" ->
  Dict.keys (markets w) = passed ++ vendor :: rest ->
  forallb (fun market => negb (str_in product market)) passed = true ->
  str_in product vendor = true ->
  (price_of (markets w) vendor product = None ->
   delete_product product (Str s) w = (w, Raise KeyError)) /\
  (forall x,
     Dict.get vendor (markets w) = Some [(product, x)] ->
     exists m',
       Dict.del vendor (markets w) = Some m' /\
       delete_product product (Str s) w = (World m' (disk w), Raise RuntimeError)).
Proof.
  intros Hall Hkeys Hpassed Hmatch.
  assert (Hrun : delete_product product (Str s) w
                 = match bind (del_entry vendor product) (fun _ => prune vendor) w with
                   | (w', Return true) => (w', Raise RuntimeError)
                   | (w', Return false) =>
                       match for_market_in_markets product rest w' with
                       | (w'', Return _) => (w'', Return true)
                       | (w'', Raise e) => (w'', Raise e)
                       end
                   | (w', Raise e) => (w', Raise e)
                   end).
  { rewrite delete_all_run by assumption.
    unfold bind at 1. unfold get_markets. unfold bind at 1.
    rewrite Hkeys, for_market_in_markets_skip_app by assumption.
    rewrite for_market_in_markets_cons, Hmatch.
    destruct (bind (del_entry vendor product) (fun _ => prune vendor) w)
      as [w1 [[|]|e]]; reflexivity. }
  rewrite Hrun, del_then_prune_run. split.
  - unfold price_of. intros Hnone.
    destruct (Dict.get vendor (markets w)) as [c|]; [|reflexivity].
    apply DictFacts.del_None in Hnone. now rewrite Hnone.
  - intros x Hget.
    destruct (Dict.get vendor (markets w)) as [c|] eqn:G;
      [|exfalso; unfold ledger, catalog in *; congruence].
    assert (Hc : c = [(product, x)])
      by (unfold ledger, catalog in *; congruence).
    subst c. simpl. rewrite String.eqb_refl.
    destruct (del_of_get _ _ _ _ G) as (m' & D). rewrite D. eauto.
Qed.

Lemma delete_all_first_match_witness :
  let w := world_of [("B", [("Milk", 1.2%Q)]); ("Milk Shop", [("Milk", 1.0%Q)])] in
  (price_of (markets w) "Milk Shop" "Milk" = None ->
   delete_product "Milk" (Str "ALL") w = (w, Raise KeyError)) /\
  (forall x,
     Dict.get "Milk Shop" (markets w) = Some [("Milk", x)] ->
     exists m',
       Dict.del "Milk Shop" (markets w) = Some m' /\
       delete_product "Milk" (Str "ALL") w = (World m' (disk w), Raise RuntimeError)).
Proof.
  exact (delete_all_first_match Q "Milk" "ALL" "Milk Shop" ["B"] []
           (world_of [("B", [("Milk", 1.2%Q)]); ("Milk Shop", [("Milk", 1.0%Q)])])
           eq_refl eq_refl eq_refl eq_refl).
Defined.

(** X15: a later [update_product] for the same market and product replaces
    the earlier one altogether: ledger and document are as if only the later
    call had been made. *)
Theorem update_product_overwrites
  (price : Type) (product vendor : string) (first second : price) (w : world price) :
  update_product product vendor second
    (fst (update_product product vendor first w))
  = update_product product vendor second w.
Proof.
  rewrite !update_product_run. cbv zeta. unfold update_json. simpl.
  destruct (ledger_encodable
              (Dict.set vendor
                 (Dict.set product first (catalog_of (markets w) vendor))
                 (markets w))); simpl;
    rewrite catalog_of_set, !DictFacts.set_set_same; reflexivity.
Qed.

(** X16: two [update_product] calls for different (market, product) pairs
    give the same prices in whichever order they are made. *)
Theorem update_product_prices_commute
  (price : Type) (p1 v1 p2 v2 : string) (c1 c2 : price) (w : world price)
  (vendor product : string) :
  v1 <> v2 \/ p1 <> p2 ->
  price_of
    (markets (fst (update_product p2 v2 c2 (fst (update_product p1 v1 c1 w)))))
    vendor product
  = price_of
      (markets (fst (update_product p1 v1 c1 (fst (update_product p2 v2 c2 w)))))
      vendor product.
Proof.
  intros Hne. rewrite !price_of_after_update.
  repeat match goal with
         | |- context [String.eqb ?a ?b] => destruct (String.eqb_spec a b)
         end; subst; simpl; try reflexivity; exfalso; intuition congruence.
Qed.

Lemma update_product_prices_commute_witness :
  let w := world_of scenario_ledger in
  price_of
    (markets (fst (update_product "Milk" "A" 2%Q (fst (update_product "Eggs" "C" 3%Q w)))))
    "C" "Eggs"
  = price_of
      (markets (fst (update_product "Eggs" "C" 3%Q (fst (update_product "Milk" "A" 2%Q w)))))
      "C" "Eggs".
Proof.
  apply (update_product_prices_commute Q "Eggs" "C" "Milk" "A" 3%Q 2%Q
           (world_of scenario_ledger) "C" "Eggs").
  left. discriminate.
Defined.

(** X17: in a well-formed ledger [find_product] returns the empty list
    exactly when no market has a price for the product. *)
Theorem find_product_empty_iff
  (price : Type) (product : string) (m : @ledger price) :
  ledger_wf m ->
  (find_product_scan product m = [] <->
   forall vendor, price_of m vendor product = None).
Proof.
  intros [Hm Hc]. split.
  - intros Hnil vendor. unfold price_of.
    destruct (Dict.get vendor m) as [c|] eqn:G; [|reflexivity].
    destruct (Dict.get product c) as [x|] eqn:P; [|reflexivity].
    assert (Hin : In (vendor, x) (find_product_scan product m)).
    { apply find_product_scan_In. exists c.
      split; now apply DictFacts.get_Some_In. }
    rewrite Hnil in Hin. contradiction.
  - intros Hnone.
    destruct (find_product_scan product m) as [|[vendor x] l] eqn:E;
      [reflexivity|]. exfalso.
    assert (Hin : In (vendor, x) (find_product_scan product m))
      by (rewrite E; now left).
    apply find_product_scan_In in Hin as (c & Hin & Hp).
    specialize (Hnone vendor). unfold price_of in Hnone.
    assert (G : Dict.get vendor m = Some c)
      by (apply DictFacts.In_get; assumption).
    unfold ledger, catalog in *. rewrite G in Hnone.
    apply DictFacts.get_None_keys in Hnone. apply Hnone.
    change product with (fst (product, x)). now apply in_map.
Qed.

Lemma find_product_empty_iff_witness :
  find_product_scan "Eggs" scenario_ledger = [] <->
  forall vendor, price_of scenario_ledger vendor "Eggs" = None.
Proof.
  exact (find_product_empty_iff Q "Eggs" scenario_ledger scenario_ledger_wf).
Defined.

(** ** A name that cannot be written *)

Section Unencodable.

Context {price : Type}.

Lemma ledger_encodable_names (m : @ledger price) vendor its_products :
  ledger_encodable m = true ->
  In (vendor, its_products) m ->
  utf8_encodable vendor = true /\
  forall product x, In (product, x) its_products -> utf8_encodable product = true.
Proof.
  unfold ledger_encodable. rewrite forallb_forall. intros Hall Hin.
  specialize (Hall _ Hin). simpl in Hall.
  apply andb_true_iff in Hall as [Hv Hp]. split; [assumption|].
  intros product x Hx. rewrite forallb_forall in Hp. exact (Hp _ Hx).
Qed.

End Unencodable.

(** X18: [update_product] with a product or market name that cannot be
    encoded in UTF-8 sets the price in memory, raises [UnicodeEncodeError]
    from the write and leaves a document that no longer loads. *)
Theorem update_product_unencodable
  (price : Type) (product vendor : string) (cost : price) (w : world price) :
  utf8_encodable product = false \/ utf8_encodable vendor = false ->
  let r := update_product product vendor cost w in
  snd r = Raise UnicodeEncodeError /\
  price_of (markets (fst r)) vendor product = Some cost /\
  load_markets (disk (fst r)) = Raise JSONDecodeError.
Proof.
  intros Hbad. cbv zeta. rewrite update_product_run. cbv zeta.
  set (its_products := Dict.set product cost (catalog_of (markets w) vendor)).
  set (m' := Dict.set vendor its_products (markets w)).
  assert (Henc : ledger_encodable m' = false).
  { destruct (ledger_encodable m') eqn:E; [|reflexivity]. exfalso.
    assert (Hin : In (vendor, its_products) m')
      by (apply DictFacts.get_Some_In, DictFacts.get_set_same).
    destruct (ledger_encodable_names m' vendor its_products E Hin) as [Hv Hp].
    assert (Hprod : utf8_encodable product = true).
    { apply (Hp product cost).
      apply DictFacts.get_Some_In, DictFacts.get_set_same. }
    destruct Hbad; congruence. }
  unfold update_json. cbn [markets disk]. rewrite Henc. cbn [fst snd markets disk].
  split; [reflexivity|]. split.
  - unfold price_of, m'. rewrite DictFacts.get_set_same.
    apply DictFacts.get_set_same.
  - unfold load_markets. now rewrite DictFacts.get_set_same.
Qed.

Lemma update_product_unencodable_witness :
  let r := update_product lone_surrogate "A" 1%Q (world_of scenario_ledger) in
  snd r = Raise UnicodeEncodeError /\
  price_of (markets (fst r)) "A" lone_surrogate = Some 1%Q /\
  load_markets (disk (fst r)) = Raise JSONDecodeError.
Proof.
  apply (update_product_unencodable Q lone_surrogate "A" 1%Q
           (world_of scenario_ledger)).
  left. reflexivity.
Defined.
